(** * generate_image.py: a shallow embedding and its properties

    The script reads a prompt and an output path, posts the prompt to the
    image endpoint, takes the first inline image of the first candidate of
    the JSON answer, decodes its base64 payload and writes the bytes to the
    output path.

    The embedding keeps the control flow of the four functions of the script
    and of [main].  Everything the script does with the outside world is
    explicit: the environment and the server are read-only parts of a
    [world], the file system and the chronological log of observable events
    are threaded through a small state-and-exit monad.  [sys.exit] and
    exceptions are results of that monad, so that "exits before the request"
    is a statement on the log. *)

From Stdlib Require Import List String Ascii Bool NArith ZArith Lia PrimFloat.
From Stdlib.Strings Require Import Byte.
Import ListNotations.
Set Warnings "-register-all".
Local Open Scope string_scope.
Local Open Scope list_scope.

(** ** Python strings

    A [str] is a Rocq [string], one [ascii] per code point: the model covers
    the code points below 256. *)

Definition chars (s : string) : list ascii := list_ascii_of_string s.
Definition str (l : list ascii) : string := string_of_list_ascii l.

(** [str.isspace] on one code point below 256. *)
Definition isspace (c : ascii) : bool :=
  let n := N_of_ascii c in
  ((9 <=? n) && (n <=? 13) || (28 <=? n) && (n <=? 32)
   || (n =? 133) || (n =? 160))%N.

Fixpoint dropwhile {A} (p : A -> bool) (l : list A) : list A :=
  match l with
  | [] => []
  | x :: r => if p x then dropwhile p r else l
  end.

Definition rdropwhile {A} (p : A -> bool) (l : list A) : list A :=
  rev (dropwhile p (rev l)).

(** [s.strip()] *)
Definition strip (s : string) : string :=
  str (rdropwhile isspace (dropwhile isspace (chars s))).

(** [s[:n]] *)
Definition prefix_to (n : nat) (s : string) : string := str (firstn n (chars s)).

(** [needle in haystack] for two strings. *)
Fixpoint starts_with (p l : list ascii) : bool :=
  match p, l with
  | [], _ => true
  | _ :: _, [] => false
  | a :: p', b :: l' => Ascii.eqb a b && starts_with p' l'
  end.

Fixpoint contains (needle hay : list ascii) : bool :=
  starts_with needle hay ||
  match hay with
  | [] => false
  | _ :: r => contains needle r
  end.

(** ** Exceptions and results *)

Inductive b64_error :=
  | IncorrectPadding
    (* binascii.Error: Incorrect padding *)
  | OneMoreThanMultipleOf4 (n : N)
    (* binascii.Error: number of data characters (n) cannot be 1 more than
       a multiple of 4 *)
  | NotAscii
    (* ValueError: string argument should contain only ASCII characters *)
  | NotBytesLike.
    (* TypeError: argument should be a bytes-like object or ASCII string *)

Inductive os_error :=
  | FileNotFound | NotADirectory | IsADirectory | FileExists.

(** The exceptions that can travel through the script.  All of them derive
    from [Exception]; [SystemExit] does not and is a result of its own.  An
    exception raised inside an [except] clause keeps the exception being
    handled as its context. *)
Inductive exn :=
  | AttributeError
  | TypeError
  | KeyError
  | UnicodeDecodeError
  | JSONDecodeError
  | Base64Error (e : b64_error)
  | OSError (e : os_error)
  | OtherError (name : string)
  | HTTPErrorRaised (code : Z)              (* urllib.error.HTTPError *)
  | DuringHandling (context : exn) (e : exn).
    (* [e], raised while [context] was being handled *)

Inductive outcome (A : Type) :=
  | Return (a : A)
  | SysExit (code : Z)
  | Raised (e : exn).
Arguments Return {A} a.
Arguments SysExit {A} code.
Arguments Raised {A} e.

(** ** base64

    [base64.b64decode(s)] with its defaults ([validate=False]): a [str] is
    first encoded as ASCII, then [binascii.a2b_base64] runs in its lenient
    mode, which skips every character outside the alphabet and stops at the
    first complete padding. *)

Definition alphabet : list ascii :=
  chars "ABCDEFGHIJKLMNOPQRSTUVWXYZabcdefghijklmnopqrstuvwxyz0123456789+/".

Definition BASE64_PAD : ascii := "="%char.

Definition table_b2a_base64 (n : N) : ascii :=
  nth (N.to_nat n) alphabet BASE64_PAD.

(** The value of a character of the alphabet, [None] for any other one. *)
Definition table_a2b_base64 (c : ascii) : option N :=
  let n := N_of_ascii c in
  (if (65 <=? n) && (n <=? 90) then Some (n - 65)
   else if (97 <=? n) && (n <=? 122) then Some (n - 71)
   else if (48 <=? n) && (n <=? 57) then Some (n + 4)
   else if n =? 43 then Some 62
   else if n =? 47 then Some 63
   else None)%N.

(** Storing into an [unsigned char] keeps the low eight bits. *)
Definition to_byte (n : N) : byte := byte_of_ascii (ascii_of_N (N.land n 255)).

Definition of_byte (b : byte) : N := Byte.to_N b.

(** The loop of [binascii.a2b_base64]; [bin] is the output written so far. *)
Fixpoint a2b_loop (data : list ascii) (quad_pos leftchar pads : N)
    (bin : list byte) : b64_error + list byte :=
  match data with
  | [] =>
      if (quad_pos =? 0)%N then inr bin
      else if (quad_pos =? 1)%N
      then inl (OneMoreThanMultipleOf4 (N.of_nat (List.length bin) / 3 * 4 + 1))
      else inl IncorrectPadding
  | this_ch :: rest =>
      if Ascii.eqb this_ch BASE64_PAD then
        if (2 <=? quad_pos)%N then
          let pads := (pads + 1)%N in
          if (4 <=? quad_pos + pads)%N then inr bin
          else a2b_loop rest quad_pos leftchar pads bin
        else a2b_loop rest quad_pos leftchar pads bin
      else
        match table_a2b_base64 this_ch with
        | None => a2b_loop rest quad_pos leftchar pads bin
        | Some v =>
            match quad_pos with
            | 0%N => a2b_loop rest 1%N v 0%N bin
            | 1%N =>
                a2b_loop rest 2%N (N.land v 15) 0%N
                  (bin ++ [to_byte (N.lor (N.shiftl leftchar 2) (N.shiftr v 4))])
            | 2%N =>
                a2b_loop rest 3%N (N.land v 3) 0%N
                  (bin ++ [to_byte (N.lor (N.shiftl leftchar 4) (N.shiftr v 2))])
            | _ =>
                a2b_loop rest 0%N 0%N 0%N
                  (bin ++ [to_byte (N.lor (N.shiftl leftchar 6) v)])
            end
        end
  end.

Definition a2b_base64 (data : list ascii) : b64_error + list byte :=
  a2b_loop data 0%N 0%N 0%N [].

Definition is_ascii (c : ascii) : bool := (N_of_ascii c <? 128)%N.

(** [base64.b64decode] on a [str]. *)
Definition b64decode_str (s : string) : b64_error + list byte :=
  if forallb is_ascii (chars s) then a2b_base64 (chars s) else inl NotAscii.

(** [base64.b64encode]: three bytes give four characters, a last group of
    one or two bytes is padded. *)
Fixpoint b2a_base64 (bin : list byte) : list ascii :=
  match bin with
  | [] => []
  | [a] =>
      let a := of_byte a in
      [table_b2a_base64 (N.shiftr a 2);
       table_b2a_base64 (N.shiftl (N.land a 3) 4);
       BASE64_PAD; BASE64_PAD]
  | [a; b] =>
      let a := of_byte a in
      let b := of_byte b in
      [table_b2a_base64 (N.shiftr a 2);
       table_b2a_base64 (N.lor (N.shiftl (N.land a 3) 4) (N.shiftr b 4));
       table_b2a_base64 (N.shiftl (N.land b 15) 2);
       BASE64_PAD]
  | a :: b :: c :: rest =>
      let a := of_byte a in
      let b := of_byte b in
      let c := of_byte c in
      table_b2a_base64 (N.shiftr a 2)
      :: table_b2a_base64 (N.lor (N.shiftl (N.land a 3) 4) (N.shiftr b 4))
      :: table_b2a_base64 (N.lor (N.shiftl (N.land b 15) 2) (N.shiftr c 6))
      :: table_b2a_base64 (N.land c 63)
      :: b2a_base64 rest
  end.

Definition b64encode (bin : list byte) : string := str (b2a_base64 bin).

(** ** JSON values, as [json.loads] builds them

    A [dict] is the list of its items; [json.loads] keeps one item per key,
    and a lookup takes the first item with the key. *)

Inductive json :=
  | JNull
  | JBool (b : bool)
  | JInt (n : Z)
  | JFloat (f : float)
  | JStr (s : string)
  | JArr (items : list json)
  | JObj (items : list (string * json)).

Fixpoint lookup_key (key : string) (items : list (string * json)) : option json :=
  match items with
  | [] => None
  | (k, v) :: rest => if String.eqb k key then Some v else lookup_key key rest
  end.

(** [bool(v)], the test behind [not v] and [if v]. *)
Definition truthy (v : json) : bool :=
  match v with
  | JNull => false
  | JBool b => b
  | JInt n => negb (n =? 0)%Z
  | JFloat f => negb (PrimFloat.eqb f 0%float)
  | JStr s => negb (String.eqb s "")
  | JArr items => match items with [] => false | _ :: _ => true end
  | JObj items => match items with [] => false | _ :: _ => true end
  end.

(** [v.get(key, default)]: only a [dict] has the method. *)
Definition py_get (v : json) (key : string) (default : json) : exn + json :=
  match v with
  | JObj items =>
      inr (match lookup_key key items with Some x => x | None => default end)
  | _ => inl AttributeError
  end.

(** [v[0]] for a value that passed [if not v]. *)
Definition py_first (v : json) : exn + json :=
  match v with
  | JArr (x :: _) => inr x
  | JArr [] => inl (OtherError "IndexError")
  | JStr s =>
      match chars s with
      | c :: _ => inr (JStr (str [c]))
      | [] => inl (OtherError "IndexError")
      end
  | JObj _ => inl KeyError
  | _ => inl TypeError
  end.

(** The values [for part in v] runs through. *)
Definition py_iter (v : json) : exn + list json :=
  match v with
  | JArr items => inr items
  | JStr s => inr (map (fun c => JStr (str [c])) (chars s))
  | JObj items => inr (map (fun kv => JStr (fst kv)) items)
  | _ => inl TypeError
  end.

Definition is_str (key : string) (v : json) : bool :=
  match v with
  | JStr s => String.eqb s key
  | _ => false
  end.

(** [key in v] for a string [key]: a key of a [dict], a substring of a
    [str], an element of a [list]. *)
Definition py_in (key : string) (v : json) : exn + bool :=
  match v with
  | JObj items =>
      inr (match lookup_key key items with Some _ => true | None => false end)
  | JStr s => inr (contains (chars key) (chars s))
  | JArr items => inr (existsb (is_str key) items)
  | _ => inl TypeError
  end.

(** [v[key]] for a string [key]. *)
Definition py_item (v : json) (key : string) : exn + json :=
  match v with
  | JObj items =>
      match lookup_key key items with
      | Some x => inr x
      | None => inl KeyError
      end
  | _ => inl TypeError
  end.

(** [base64.b64decode(v)]: anything but a [str] is no bytes-like object. *)
Definition b64decode (v : json) : b64_error + list byte :=
  match v with
  | JStr s => b64decode_str s
  | _ => inl NotBytesLike
  end.

(** ** Paths and the file system

    A path names a node by its segments between slashes, empty segments and
    [.] dropped; segments are compared literally (no symbolic links, no
    interpretation of [..] inside a path).  The root and the working
    directory always exist. *)

Definition sep : ascii := "/"%char.
Definition is_sep (c : ascii) : bool := Ascii.eqb c sep.

Fixpoint segments (l : list ascii) : list (list ascii) :=
  match l with
  | [] => [[]]
  | c :: r =>
      if is_sep c then [] :: segments r
      else match segments r with
           | s :: ss => (c :: s) :: ss
           | [] => [[c]]
           end
  end.

Definition is_name (s : list ascii) : bool :=
  match s with
  | [] => false
  | _ => negb (String.eqb (str s) ".")
  end.

Definition names (p : string) : list string :=
  map str (filter is_name (segments (chars p))).

Definition is_absolute (p : string) : bool :=
  match chars p with
  | c :: _ => is_sep c
  | [] => false
  end.

(** [os.path.dirname]: up to the last slash, trailing slashes removed unless
    nothing else is left. *)
Definition dirname (p : string) : string :=
  let head := rdropwhile (fun c => negb (is_sep c)) (chars p) in
  if forallb is_sep head then str head else str (rdropwhile is_sep head).

(** [os.path.basename]: what follows the last slash. *)
Definition basename (p : string) : string :=
  str (last (segments (chars p)) []).

(** A last segment that can name a regular file. *)
Definition is_file_name (s : string) : bool :=
  negb (String.eqb s "") && negb (String.eqb s ".") && negb (String.eqb s "..").

Inductive node :=
  | Dir
  | File (content : list byte).

Definition key : Type := bool * list string.

Definition key_eqb (a b : key) : bool :=
  Bool.eqb (fst a) (fst b) &&
  if list_eq_dec string_dec (snd a) (snd b) then true else false.

Definition path_key (p : string) : key := (is_absolute p, names p).

Definition filesys : Type := key -> option node.

Definition lookup (fs : filesys) (k : key) : option node :=
  match snd k with
  | [] => Some Dir
  | _ => fs k
  end.

Definition update (fs : filesys) (k : key) (n : node) : filesys :=
  fun k' => if key_eqb k k' then Some n else fs k'.

Definition empty_fs : filesys := fun _ => None.

Definition read_file (fs : filesys) (p : string) : option (list byte) :=
  match lookup fs (path_key p) with
  | Some (File content) => Some content
  | _ => None
  end.

Definition is_dir (fs : filesys) (p : string) : bool :=
  match lookup fs (path_key p) with
  | Some Dir => true
  | _ => false
  end.

(** [os.makedirs(p, exist_ok=True)] from the top down: an existing directory
    is kept, a missing one is made, a regular file in the way is an error
    that leaves what was made so far. *)
Fixpoint makedirs_from (abs : bool) (done todo : list string) (fs : filesys)
    : option os_error * filesys :=
  match todo with
  | [] => (None, fs)
  | name :: rest =>
      let here := done ++ [name] in
      match lookup fs (abs, here) with
      | Some Dir => makedirs_from abs here rest fs
      | Some (File _) =>
          (Some (match rest with [] => FileExists | _ => NotADirectory end), fs)
      | None => makedirs_from abs here rest (update fs (abs, here) Dir)
      end
  end.

Definition os_makedirs (p : string) (fs : filesys) : option os_error * filesys :=
  if String.eqb p "" then (Some FileNotFound, fs)
  else makedirs_from (is_absolute p) [] (names p) fs.

(** [open(p, "wb")], [write] and [close]: the parent must be a directory and
    [p] must not name one. *)
Definition os_write_file (p : string) (content : list byte) (fs : filesys)
    : option os_error * filesys :=
  let k := path_key p in
  if String.eqb p "" then (Some FileNotFound, fs)
  else if negb (is_file_name (basename p)) then
    (Some (match lookup fs k with
           | Some Dir => IsADirectory
           | Some (File _) => NotADirectory
           | None => FileNotFound
           end), fs)
  else
    match lookup fs (fst k, removelast (snd k)) with
    | Some Dir =>
        match lookup fs k with
        | Some Dir => (Some IsADirectory, fs)
        | _ => (None, update fs k (File content))
        end
    | Some (File _) => (Some NotADirectory, fs)
    | None => (Some FileNotFound, fs)
    end.

(** ** The world, the observable events and the monad of the script *)

Record request := {
  req_url : string;
  req_headers : list (string * string);
  req_json : json;          (* the document [json.dumps] serialises *)
  req_method : string;
  req_timeout : Z
}.

(** A body read from the connection, by what [decode("utf-8")] and
    [json.loads] make of it. *)
Inductive body :=
  | Undecodable                              (* not UTF-8 *)
  | Malformed (text : string)                (* text that is no JSON *)
  | Document (text : string) (value : json). (* text of a JSON document *)

(** What [urllib.request.urlopen] does with the request. *)
Inductive reply :=
  | Response (b : body)                      (* a 2xx answer *)
  | HTTPError (code : Z) (fp : option body)  (* any other status *)
  | URLError (reason : string)
  | TimedOut                                 (* TimeoutError *)
  | Failure (name : string).                 (* any other exception *)

Record world := {
  environ : string -> option string;
  urlopen : request -> reply
}.

(** One constructor for each [print] of the script, with the values the
    format string interpolates. *)
Inductive message :=
  | NoApiKey
  | RequestFailed (code : Z)
  | DetailsJson (error_json : json)
  | DetailsText (error_body : string)
  | NetworkError (reason : string)
  | RequestTimedOut
  | NoCandidates
  | EmptyImageData
  | DecodeFailed (e : b64_error)
  | NoImageData
  | SaveFailed (e : os_error)
  | EmptyPrompt
  | Generating (shown : string) (ellipsis : bool)
  | ImageSaved (path : string).

(** The constant text that starts each message. *)
Definition fixed_text (m : message) : string :=
  match m with
  | NoApiKey => "Error: GEMINI_API_KEY environment variable is not set"
  | RequestFailed _ => "Error: API request failed with status "
  | DetailsJson _ => "Details: "
  | DetailsText _ => "Details: "
  | NetworkError _ => "Error: Network error - "
  | RequestTimedOut => "Error: Request timed out"
  | NoCandidates => "Error: No candidates in response"
  | EmptyImageData => "Error: Empty image data in response"
  | DecodeFailed _ => "Error: Failed to decode base64 data - "
  | NoImageData => "Error: No image data found in response"
  | SaveFailed _ => "Error: Failed to save image - "
  | EmptyPrompt => "Error: Prompt cannot be empty"
  | Generating _ _ => "Generating image for: "
  | ImageSaved _ => "Image saved to: "
  end.

Inductive event :=
  | Stdout (m : message)
  | Stderr (m : message)
  | UrlOpen (r : request)                      (* the HTTP request is sent *)
  | Makedirs (path : string)                   (* [os.makedirs] is called *)
  | WriteFile (path : string) (content : list byte).
                                               (* [open] and [write] are called *)

Record state := {
  files : filesys;
  log : list event       (* oldest first *)
}.

Definition M (A : Type) : Type := state -> outcome A * state.

Definition ret {A} (a : A) : M A := fun s => (Return a, s).

Definition bind {A B} (m : M A) (k : A -> M B) : M B :=
  fun s =>
    match m s with
    | (Return a, s') => k a s'
    | (SysExit code, s') => (SysExit code, s')
    | (Raised e, s') => (Raised e, s')
    end.

Notation "x <- m ;; k" := (bind m (fun x => k))
  (at level 61, m at next level, right associativity).
Notation "m ;; k" := (bind m (fun _ => k))
  (at level 61, right associativity).

Definition emit (e : event) : M unit :=
  fun s => (Return tt, {| files := files s; log := log s ++ [e] |}).

Definition print (m : message) : M unit := emit (Stdout m).
Definition print_stderr (m : message) : M unit := emit (Stderr m).

Definition sys_exit {A} (code : Z) : M A := fun s => (SysExit code, s).
Definition raise {A} (e : exn) : M A := fun s => (Raised e, s).

Definition lift {A} (r : exn + A) : M A :=
  match r with
  | inr a => ret a
  | inl e => raise e
  end.

(** A call of the operating system: the file system changes, an error
    becomes an [OSError]. *)
Definition syscall (f : filesys -> option os_error * filesys) : M unit :=
  fun s =>
    let (r, fs') := f (files s) in
    let s' := {| files := fs'; log := log s |} in
    match r with
    | None => (Return tt, s')
    | Some e => (Raised (OSError e), s')
    end.

(** [try: m  except IOError as e: handler e] *)
Definition except_IOError {A} (m : M A) (handler : os_error -> M A) : M A :=
  fun s =>
    match m s with
    | (Raised (OSError e), s') => handler e s'
    | r => r
    end.

(** The status the interpreter ends with: 0 after [main] returns, the
    argument of [sys.exit], 1 after a traceback. *)
Definition exit_status {A} (o : outcome A) : Z :=
  match o with
  | Return _ => 0
  | SysExit code => code
  | Raised _ => 1
  end.

(** ** The script *)

Definition is_empty (s : string) : bool := String.eqb s "".

(** [get_api_key()] *)
Definition get_api_key (w : world) : M string :=
  match environ w "GEMINI_API_KEY" with
  | Some api_key =>
      if is_empty api_key then
        print_stderr NoApiKey ;; sys_exit 1
      else ret api_key
  | None => print_stderr NoApiKey ;; sys_exit 1
  end.

Definition endpoint : string :=
  "https://generativelanguage.googleapis.com/v1beta/models/gemini-3-pro-image-preview:generateContent".

Definition build_request (api_key prompt : string) : request :=
  {| req_url := endpoint;
     req_headers := [("x-goog-api-key", api_key);
                     ("Content-Type", "application/json")];
     req_json :=
       JObj [("contents",
              JArr [JObj [("role", JStr "user");
                          ("parts", JArr [JObj [("text", JStr prompt)]])]]);
             ("generationConfig",
              JObj [("responseModalities", JArr [JStr "TEXT"; JStr "IMAGE"])])];
     req_method := "POST";
     req_timeout := 120 |}.

(** [generate_image(prompt)] *)
Definition generate_image (w : world) (prompt : string) : M json :=
  api_key <- get_api_key w ;;
  let request := build_request api_key prompt in
  emit (UrlOpen request) ;;
  match urlopen w request with
  | Response Undecodable => raise UnicodeDecodeError
  | Response (Malformed _) => raise JSONDecodeError
  | Response (Document _ value) => ret value
  | HTTPError code fp =>
      error_body <- match fp with
                    | None => ret ""
                    | Some Undecodable =>
                        raise (DuringHandling (HTTPErrorRaised code)
                                              UnicodeDecodeError)
                    | Some (Malformed text) => ret text
                    | Some (Document text _) => ret text
                    end ;;
      print_stderr (RequestFailed code) ;;
      (if is_empty error_body then ret tt
       else match fp with
            | Some (Document _ error_json) => print_stderr (DetailsJson error_json)
            | _ => print_stderr (DetailsText error_body)
            end) ;;
      sys_exit 1
  | URLError reason => print_stderr (NetworkError reason) ;; sys_exit 1
  | TimedOut => print_stderr RequestTimedOut ;; sys_exit 1
  | Failure name => raise (OtherError name)
  end.

(** The [for part in parts] loop of [extract_image_data], with the two lines
    that follow it. *)
Fixpoint for_part_in (parts : list json) : M (list byte * json) :=
  match parts with
  | [] => print_stderr NoImageData ;; sys_exit 1
  | part :: rest =>
      found <- lift (py_in "inlineData" part) ;;
      if found : bool then
        inline_data <- lift (py_item part "inlineData") ;;
        mime_type <- lift (py_get inline_data "mimeType" (JStr "image/png")) ;;
        base64_data <- lift (py_get inline_data "data" (JStr "")) ;;
        if negb (truthy base64_data) then
          print_stderr EmptyImageData ;; sys_exit 1
        else
          match b64decode base64_data with
          | inr image_bytes => ret (image_bytes, mime_type)
          | inl e => print_stderr (DecodeFailed e) ;; sys_exit 1
          end
      else for_part_in rest
  end.

(** [extract_image_data(response)] *)
Definition extract_image_data (response : json) : M (list byte * json) :=
  candidates <- lift (py_get response "candidates" (JArr [])) ;;
  if negb (truthy candidates) then
    print_stderr NoCandidates ;; sys_exit 1
  else
    candidate <- lift (py_first candidates) ;;
    content <- lift (py_get candidate "content" (JObj [])) ;;
    parts <- lift (py_get content "parts" (JArr [])) ;;
    items <- lift (py_iter parts) ;;
    for_part_in items.

(** [save_image(image_bytes, output_path)] *)
Definition save_image (image_bytes : list byte) (output_path : string) : M string :=
  except_IOError
    (let parent_dir := dirname output_path in
     (if is_empty parent_dir then ret tt
      else emit (Makedirs parent_dir) ;; syscall (os_makedirs parent_dir)) ;;
     emit (WriteFile output_path image_bytes) ;;
     syscall (os_write_file output_path image_bytes) ;;
     ret output_path)
    (fun e => print_stderr (SaveFailed e) ;; sys_exit 1).

(** The parsed command line. *)
Record Namespace := {
  prompt : string;
  output : string
}.

(** [main()], from the parsed arguments on. *)
Definition main (w : world) (args : Namespace) : M unit :=
  (if is_empty (strip (prompt args)) then
     print_stderr EmptyPrompt ;; sys_exit 1
   else ret tt) ;;
  print (Generating (prefix_to 50 (prompt args))
                    (Nat.ltb 50 (String.length (prompt args)))) ;;
  response <- generate_image w (prompt args) ;;
  extracted <- extract_image_data response ;;
  let image_bytes := fst extracted in
  save_image image_bytes (output args) ;;
  print (ImageSaved (output args)).

(** A run of the script from a file system, with an empty log. *)
Definition start (fs : filesys) : state := {| files := fs; log := [] |}.

Definition run (w : world) (args : Namespace) (fs : filesys) : outcome unit * state :=
  main w args (start fs).

(** ** Finite checks used by the base64 proofs *)

Definition all_bytes : list byte :=
  map (fun n => to_byte (N.of_nat n)) (seq 0 256).

Definition all_sextets : list N := map N.of_nat (seq 0 64).

Definition is_sextet (n : N) : bool := (n <? 64)%N.

(** The four sextets of a group of three bytes. *)
Definition sextet0 (a : N) : N := N.shiftr a 2.
Definition sextet1 (a b : N) : N := N.lor (N.shiftl (N.land a 3) 4) (N.shiftr b 4).
Definition sextet2 (b c : N) : N := N.lor (N.shiftl (N.land b 15) 2) (N.shiftr c 6).
Definition sextet3 (c : N) : N := N.land c 63.

(** What the decoder needs of the first two characters of a group. *)
Definition check_first (x y : byte) : bool :=
  let a := of_byte x in
  let b := of_byte y in
  is_sextet (sextet0 a) && is_sextet (sextet1 a b)
  && Byte.eqb (to_byte (N.lor (N.shiftl (sextet0 a) 2) (N.shiftr (sextet1 a b) 4))) x
  && (N.land (sextet1 a b) 15 =? N.shiftr b 4)%N.

(** What it needs of the last two. *)
Definition check_last (x y : byte) : bool :=
  let b := of_byte x in
  let c := of_byte y in
  is_sextet (sextet2 b c) && is_sextet (sextet3 c)
  && Byte.eqb (to_byte (N.lor (N.shiftl (N.shiftr b 4) 4) (N.shiftr (sextet2 b c) 2))) x
  && (N.land (sextet2 b c) 3 =? N.shiftr c 6)%N
  && Byte.eqb (to_byte (N.lor (N.shiftl (N.shiftr c 6) 6) (sextet3 c))) y.

Definition check_sextet (n : N) : bool :=
  match table_a2b_base64 (table_b2a_base64 n) with
  | Some m => (m =? n)%N
  | None => false
  end
  && negb (Ascii.eqb (table_b2a_base64 n) BASE64_PAD)
  && is_ascii (table_b2a_base64 n).

(** ** Vocabulary of the statements *)

(** [selects response d]: the first candidate of [response] has a list of
    parts, and [d] is the inline-data object of the first part that has an
    [inlineData] key.  The candidates after the first and the parts after
    that one are arbitrary. *)
Definition plain_part (part : json) : Prop := py_in "inlineData" part = inr false.

Inductive selects : json -> list (string * json) -> Prop :=
  | selects_first top candidate more content before part after d :
      lookup_key "candidates" top = Some (JArr (JObj candidate :: more)) ->
      lookup_key "content" candidate = Some (JObj content) ->
      lookup_key "parts" content = Some (JArr (before ++ JObj part :: after)) ->
      Forall plain_part before ->
      lookup_key "inlineData" part = Some (JObj d) ->
      selects (JObj top) d.

(** The [data] and [mimeType] fields of an inline-data object, with the
    defaults of the extractor. *)
Definition payload (d : list (string * json)) : json :=
  match lookup_key "data" d with Some v => v | None => JStr "" end.

Definition mime (d : list (string * json)) : json :=
  match lookup_key "mimeType" d with Some v => v | None => JStr "image/png" end.

(** Responses up to the [mimeType] fields of the inline data of the parts of
    the first candidate. *)
Definition at_key (key : string) (f : json -> json) (v : json) : json :=
  match v with
  | JObj items =>
      JObj (map (fun kv => if String.eqb (fst kv) key then (fst kv, f (snd kv)) else kv)
                items)
  | _ => v
  end.

Definition at_first (f : json -> json) (v : json) : json :=
  match v with
  | JArr (x :: rest) => JArr (f x :: rest)
  | _ => v
  end.

Definition at_each (f : json -> json) (v : json) : json :=
  match v with
  | JArr items => JArr (map f items)
  | _ => v
  end.

Definition without_mime (inline_data : json) : json :=
  match inline_data with
  | JObj d => JObj (filter (fun kv => negb (String.eqb (fst kv) "mimeType")) d)
  | _ => inline_data
  end.

Definition erase_mime (response : json) : json :=
  at_key "candidates"
    (at_first
       (at_key "content"
          (at_key "parts" (at_each (at_key "inlineData" without_mime)))))
    response.

(** Two answers of the server that differ at most in those fields. *)
Definition same_but_mime (a b : reply) : Prop :=
  match a, b with
  | Response (Document _ x), Response (Document _ y) => erase_mime x = erase_mime y
  | _, _ => a = b
  end.

(** The server answers the request of this run with the document
    [response]: the prompt is not blank and the key is set. *)
Definition answers (w : world) (args : Namespace) (response : json) : Prop :=
  is_empty (strip (prompt args)) = false /\
  exists api_key text,
    environ w "GEMINI_API_KEY" = Some api_key /\
    is_empty api_key = false /\
    urlopen w (build_request api_key (prompt args))
    = Response (Document text response).

(** The server answers the request of this run with an HTTP error. *)
Definition fails_with (w : world) (args : Namespace) (code : Z) (fp : option body)
    : Prop :=
  is_empty (strip (prompt args)) = false /\
  exists api_key,
    environ w "GEMINI_API_KEY" = Some api_key /\
    is_empty api_key = false /\
    urlopen w (build_request api_key (prompt args)) = HTTPError code fp.

(** What [main] does once the response is there. *)
Definition finish (args : Namespace) (response : json) : M unit :=
  extracted <- extract_image_data response ;;
  save_image (fst extracted) (output args) ;;
  print (ImageSaved (output args)).

(** The log of a run up to the request. *)
Definition log_to_request (api_key : string) (args : Namespace) : list event :=
  [Stdout (Generating (prefix_to 50 (prompt args))
                      (Nat.ltb 50 (String.length (prompt args))));
   UrlOpen (build_request api_key (prompt args))].

(** A handled error: a message on standard error, then [sys.exit(1)]. *)
Definition handled {A} (r : outcome A * state) : Prop :=
  match fst r with
  | SysExit code =>
      code = 1%Z /\ exists before m, log (snd r) = before ++ [Stderr m]
  | _ => True
  end.

Definition is_request (e : event) : bool :=
  match e with
  | UrlOpen _ => true
  | _ => false
  end.

Definition is_stderr (e : event) : bool :=
  match e with
  | Stderr _ => true
  | _ => false
  end.

(** Every node of a file system lies in a directory. *)
Definition well_formed (fs : filesys) : Prop :=
  forall abs parent name,
    fs (abs, parent ++ [name]) <> None -> lookup fs (abs, parent) = Some Dir.



(** The details line that follows the status line of an HTTP error. *)
Definition details (fp : option body) : list event :=
  match fp with
  | Some (Document text error_json) =>
      if is_empty text then [] else [Stderr (DetailsJson error_json)]
  | Some (Malformed text) =>
      if is_empty text then [] else [Stderr (DetailsText text)]
  | _ => []
  end.

(** The result of the extractor without the mime type, which is all that
    [main] keeps of it. *)
Definition bytes_only (r : outcome (list byte * json) * state)
    : outcome (list byte) * state :=
  (match fst r with
   | Return extracted => Return (fst extracted)
   | SysExit code => SysExit code
   | Raised e => Raised e
   end, snd r).



(** ** Standard error of the process

    What reaches standard error in a run: the messages the script prints
    there, in order, and, when an exception leaves [main], the traceback the
    interpreter prints for it.  The traceback names every exception of the
    chain with its message; the message of an [HTTPError] is "HTTP Error",
    the code and the reason. *)
Inductive stderr_line :=
  | Printed (m : message)
  | Traceback (e : exn).

Definition printed_on_stderr (e : event) : list stderr_line :=
  match e with
  | Stderr m => [Printed m]
  | _ => []
  end.

Definition standard_error (r : outcome unit * state) : list stderr_line :=
  flat_map printed_on_stderr (log (snd r))
  ++ match fst r with
     | Raised e => [Traceback e]
     | _ => []
     end.

(** The traceback of [e] shows the status [code]. *)
Fixpoint shows_status (code : Z) (e : exn) : bool :=
  match e with
  | HTTPErrorRaised c => (c =? code)%Z
  | DuringHandling context e' => shows_status code context || shows_status code e'
  | _ => false
  end.

(** A line of standard error that carries the status [code]: the status
    line of the script, or a traceback that shows it. *)
Definition surfaces_status (code : Z) (line : stderr_line) : bool :=
  match line with
  | Printed (RequestFailed c) => (c =? code)%Z
  | Printed _ => false
  | Traceback e => shows_status code e
  end.

(** ** Vocabulary of the further statements *)

Definition is_message (e : event) : bool :=
  match e with
  | Stdout _ | Stderr _ => true
  | _ => false
  end.

Definition is_fs_event (e : event) : bool :=
  match e with
  | Makedirs _ | WriteFile _ _ => true
  | _ => false
  end.

(** A computation that leaves the file system alone and adds nothing but
    messages to the log. *)
Definition only_prints {A} (m : M A) : Prop :=
  forall s,
    files (snd (m s)) = files s /\
    exists msgs, log (snd (m s)) = log s ++ msgs /\ forallb is_message msgs = true.

(** The run reaches the request: the prompt is not blank and the key is
    set; [r] is what [urlopen] does with the request. *)
Definition requests (w : world) (args : Namespace) (api_key : string) (r : reply)
    : Prop :=
  is_empty (strip (prompt args)) = false /\
  environ w "GEMINI_API_KEY" = Some api_key /\
  is_empty api_key = false /\
  urlopen w (build_request api_key (prompt args)) = r.

(** The parts the extractor runs through for a candidate object, with the
    defaults of the two [get]: [None] when it raises before the loop. *)
Definition parts_of (candidate : list (string * json)) : option (list json) :=
  match lookup_key "content" candidate with
  | None => Some []
  | Some (JObj content) =>
      match lookup_key "parts" content with
      | None => Some []
      | Some parts =>
          match py_iter parts with
          | inr items => Some items
          | inl _ => None
          end
      end
  | Some _ => None
  end.

(** ** Sample data *)

Definition sample_part (data : json) : json :=
  JObj [("inlineData", JObj [("mimeType", JStr "image/png"); ("data", data)])].

Definition sample_response (parts : list json) (more : list json) : json :=
  JObj [("candidates",
         JArr (JObj [("content", JObj [("role", JStr "model");
                                        ("parts", JArr parts)])] :: more))].

Definition sample_world (r : reply) : world :=
  {| environ := fun name =>
       if String.eqb name "GEMINI_API_KEY" then Some "secret" else None;
     urlopen := fun _ => r |}.

Definition keyless_world : world :=
  {| environ := fun _ => None; urlopen := fun _ => TimedOut |}.

Definition sample_args : Namespace :=
  {| prompt := "a red kite"; output := "out/img/kite.png" |}.

(** * Properties *)

(** ** base64: decoding an encoding *)

Lemma str_chars (s : string) : str (chars s) = s.
Proof. apply string_of_list_ascii_of_string. Qed.

Lemma chars_str (l : list ascii) : chars (str l) = l.
Proof. apply list_ascii_of_string_of_list_ascii. Qed.

Lemma all_bytes_complete (b : byte) : existsb (Byte.eqb b) all_bytes = true.
Proof. destruct b; vm_compute; reflexivity. Qed.

Lemma for_all_bytes (P : byte -> bool) :
  forallb P all_bytes = true -> forall b, P b = true.
Proof.
  intros H b.
  pose proof (all_bytes_complete b) as Hb.
  apply existsb_exists in Hb. destruct Hb as [x [Hin Heq]].
  apply Byte.byte_dec_bl in Heq. subst x.
  rewrite forallb_forall in H. apply H, Hin.
Qed.

Lemma for_all_byte_pairs (P : byte -> byte -> bool) :
  forallb (fun a => forallb (P a) all_bytes) all_bytes = true ->
  forall a b, P a b = true.
Proof.
  intros H a b.
  apply (for_all_bytes (P a)).
  apply (for_all_bytes (fun a => forallb (P a) all_bytes) H).
Qed.

Lemma check_first_all (x y : byte) : check_first x y = true.
Proof. apply for_all_byte_pairs. vm_compute. reflexivity. Qed.

Lemma check_last_all (x y : byte) : check_last x y = true.
Proof. apply for_all_byte_pairs. vm_compute. reflexivity. Qed.

Lemma sextets_complete (n : N) :
  (n < 64)%N -> In n all_sextets.
Proof.
  intros H. unfold all_sextets.
  rewrite <- (N2Nat.id n). apply in_map. apply in_seq. lia.
Qed.

Lemma check_sextet_all (n : N) : (n < 64)%N -> check_sextet n = true.
Proof.
  intros H. apply sextets_complete in H. revert n H.
  apply forallb_forall. vm_compute. reflexivity.
Qed.

Lemma a2b_loop_symbol (n : N) rest quad_pos leftchar pads bin :
  (n < 64)%N ->
  a2b_loop (table_b2a_base64 n :: rest) quad_pos leftchar pads bin =
  match quad_pos with
  | 0%N => a2b_loop rest 1%N n 0%N bin
  | 1%N =>
      a2b_loop rest 2%N (N.land n 15) 0%N
        (bin ++ [to_byte (N.lor (N.shiftl leftchar 2) (N.shiftr n 4))])
  | 2%N =>
      a2b_loop rest 3%N (N.land n 3) 0%N
        (bin ++ [to_byte (N.lor (N.shiftl leftchar 4) (N.shiftr n 2))])
  | _ =>
      a2b_loop rest 0%N 0%N 0%N
        (bin ++ [to_byte (N.lor (N.shiftl leftchar 6) n)])
  end.
Proof.
  intros H. pose proof (check_sextet_all n H) as C.
  unfold check_sextet in C.
  apply andb_true_iff in C. destruct C as [C _].
  apply andb_true_iff in C. destruct C as [C1 C2].
  apply negb_true_iff in C2.
  destruct (table_a2b_base64 (table_b2a_base64 n)) as [m|] eqn:E; [|discriminate].
  apply N.eqb_eq in C1. subst m.
  cbn [a2b_loop]. rewrite C2, E. reflexivity.
Qed.

Lemma first_facts (x y : byte) :
  (sextet0 (of_byte x) < 64)%N /\
  (sextet1 (of_byte x) (of_byte y) < 64)%N /\
  to_byte (N.lor (N.shiftl (sextet0 (of_byte x)) 2)
                 (N.shiftr (sextet1 (of_byte x) (of_byte y)) 4)) = x /\
  N.land (sextet1 (of_byte x) (of_byte y)) 15 = N.shiftr (of_byte y) 4.
Proof.
  pose proof (check_first_all x y) as C. unfold check_first, is_sextet in C.
  repeat (apply andb_true_iff in C; destruct C as [C ?]).
  repeat split.
  - now apply N.ltb_lt.
  - now apply N.ltb_lt.
  - now apply Byte.byte_dec_bl.
  - now apply N.eqb_eq.
Qed.

Lemma last_facts (x y : byte) :
  (sextet2 (of_byte x) (of_byte y) < 64)%N /\
  (sextet3 (of_byte y) < 64)%N /\
  to_byte (N.lor (N.shiftl (N.shiftr (of_byte x) 4) 4)
                 (N.shiftr (sextet2 (of_byte x) (of_byte y)) 2)) = x /\
  N.land (sextet2 (of_byte x) (of_byte y)) 3 = N.shiftr (of_byte y) 6 /\
  to_byte (N.lor (N.shiftl (N.shiftr (of_byte y) 6) 6) (sextet3 (of_byte y))) = y.
Proof.
  pose proof (check_last_all x y) as C. unfold check_last, is_sextet in C.
  repeat (apply andb_true_iff in C; destruct C as [C ?]).
  repeat split.
  - now apply N.ltb_lt.
  - now apply N.ltb_lt.
  - now apply Byte.byte_dec_bl.
  - now apply N.eqb_eq.
  - now apply Byte.byte_dec_bl.
Qed.

Lemma sextet1_alone (a : N) : sextet1 a 0 = N.shiftl (N.land a 3) 4.
Proof. unfold sextet1. rewrite N.shiftr_0_l. apply N.lor_0_r. Qed.

Lemma sextet2_alone (b : N) : sextet2 b 0 = N.shiftl (N.land b 15) 2.
Proof. unfold sextet2. rewrite N.shiftr_0_l. apply N.lor_0_r. Qed.

(** A full group of four characters gives back its three bytes and leaves
    the decoder in its initial state. *)
Lemma a2b_loop_group (a b c : byte) rest bin :
  a2b_loop (b2a_base64 (a :: b :: c :: rest)) 0 0 0 bin =
  a2b_loop (b2a_base64 rest) 0 0 0 (bin ++ [a; b; c]).
Proof.
  destruct (first_facts a b) as (F0 & F1 & Fa & Fl).
  destruct (last_facts b c) as (L2 & L3 & Lb & Ll & Lc).
  change (b2a_base64 (a :: b :: c :: rest)) with
    (table_b2a_base64 (sextet0 (of_byte a))
     :: table_b2a_base64 (sextet1 (of_byte a) (of_byte b))
     :: table_b2a_base64 (sextet2 (of_byte b) (of_byte c))
     :: table_b2a_base64 (sextet3 (of_byte c))
     :: b2a_base64 rest).
  rewrite (a2b_loop_symbol _ _ _ _ _ _ F0).
  rewrite (a2b_loop_symbol _ _ _ _ _ _ F1).
  rewrite (a2b_loop_symbol _ _ _ _ _ _ L2).
  rewrite (a2b_loop_symbol _ _ _ _ _ _ L3).
  cbv iota. rewrite Fa, Fl, Lb, Ll, Lc.
  rewrite <- !app_assoc. reflexivity.
Qed.

Lemma a2b_loop_one (a : byte) bin :
  a2b_loop (b2a_base64 [a]) 0 0 0 bin = inr (bin ++ [a]).
Proof.
  destruct (first_facts a x00) as (F0 & F1 & Fa & _).
  change (of_byte x00) with 0%N in *.
  rewrite sextet1_alone in F1, Fa.
  change (b2a_base64 [a]) with
    [table_b2a_base64 (sextet0 (of_byte a));
     table_b2a_base64 (N.shiftl (N.land (of_byte a) 3) 4);
     BASE64_PAD; BASE64_PAD].
  rewrite (a2b_loop_symbol _ _ _ _ _ _ F0).
  rewrite (a2b_loop_symbol _ _ _ _ _ _ F1).
  cbv iota. rewrite Fa. reflexivity.
Qed.

Lemma a2b_loop_two (a b : byte) bin :
  a2b_loop (b2a_base64 [a; b]) 0 0 0 bin = inr (bin ++ [a; b]).
Proof.
  destruct (first_facts a b) as (F0 & F1 & Fa & Fl).
  destruct (last_facts b x00) as (L2 & _ & Lb & _).
  change (of_byte x00) with 0%N in *.
  rewrite sextet2_alone in L2, Lb.
  change (b2a_base64 [a; b]) with
    [table_b2a_base64 (sextet0 (of_byte a));
     table_b2a_base64 (sextet1 (of_byte a) (of_byte b));
     table_b2a_base64 (N.shiftl (N.land (of_byte b) 15) 2);
     BASE64_PAD].
  rewrite (a2b_loop_symbol _ _ _ _ _ _ F0).
  rewrite (a2b_loop_symbol _ _ _ _ _ _ F1).
  rewrite (a2b_loop_symbol _ _ _ _ _ _ L2).
  cbv iota. rewrite Fa, Fl, Lb.
  rewrite <- app_assoc. reflexivity.
Qed.

Lemma list_ind3 {A} (P : list A -> Prop) :
  P [] -> (forall a, P [a]) -> (forall a b, P [a; b]) ->
  (forall a b c rest, P rest -> P (a :: b :: c :: rest)) ->
  forall l, P l.
Proof.
  intros H0 H1 H2 H3.
  fix IH 1. intros [|a [|b [|c rest]]].
  - exact H0.
  - apply H1.
  - apply H2.
  - apply H3, IH.
Qed.

Lemma a2b_loop_b2a (bin acc : list byte) :
  a2b_loop (b2a_base64 bin) 0 0 0 acc = inr (acc ++ bin).
Proof.
  revert acc. induction bin as [|a|a b|a b c rest IH] using list_ind3; intros acc.
  - simpl. now rewrite app_nil_r.
  - apply a2b_loop_one.
  - apply a2b_loop_two.
  - rewrite a2b_loop_group, IH, <- app_assoc. reflexivity.
Qed.

Lemma b2a_base64_ascii (bin : list byte) :
  forallb is_ascii (b2a_base64 bin) = true.
Proof.
  assert (S : forall n, (n < 64)%N -> is_ascii (table_b2a_base64 n) = true).
  { intros n H. pose proof (check_sextet_all n H) as C. unfold check_sextet in C.
    apply andb_true_iff in C. tauto. }
  induction bin as [|a|a b|a b c rest IH] using list_ind3.
  - reflexivity.
  - destruct (first_facts a x00) as (F0 & F1 & _).
    change (of_byte x00) with 0%N in *. rewrite sextet1_alone in F1.
    change (b2a_base64 [a]) with
      [table_b2a_base64 (sextet0 (of_byte a));
       table_b2a_base64 (N.shiftl (N.land (of_byte a) 3) 4);
       BASE64_PAD; BASE64_PAD].
    cbn [forallb]. rewrite (S _ F0), (S _ F1). reflexivity.
  - destruct (first_facts a b) as (F0 & F1 & _).
    destruct (last_facts b x00) as (L2 & _).
    change (of_byte x00) with 0%N in *. rewrite sextet2_alone in L2.
    change (b2a_base64 [a; b]) with
      [table_b2a_base64 (sextet0 (of_byte a));
       table_b2a_base64 (sextet1 (of_byte a) (of_byte b));
       table_b2a_base64 (N.shiftl (N.land (of_byte b) 15) 2);
       BASE64_PAD].
    cbn [forallb]. rewrite (S _ F0), (S _ F1), (S _ L2). reflexivity.
  - destruct (first_facts a b) as (F0 & F1 & _).
    destruct (last_facts b c) as (L2 & L3 & _).
    change (b2a_base64 (a :: b :: c :: rest)) with
      (table_b2a_base64 (sextet0 (of_byte a))
       :: table_b2a_base64 (sextet1 (of_byte a) (of_byte b))
       :: table_b2a_base64 (sextet2 (of_byte b) (of_byte c))
       :: table_b2a_base64 (sextet3 (of_byte c))
       :: b2a_base64 rest).
    cbn [forallb]. rewrite (S _ F0), (S _ F1), (S _ L2), (S _ L3), IH. reflexivity.
Qed.

Lemma b64decode_b64encode (bin : list byte) :
  b64decode (JStr (b64encode bin)) = inr bin.
Proof.
  unfold b64decode, b64decode_str, b64encode, a2b_base64.
  rewrite chars_str, b2a_base64_ascii. apply a2b_loop_b2a.
Qed.

(** ** The monad *)

Lemma bind_return {A B} (m : M A) (k : A -> M B) s a s' :
  m s = (Return a, s') -> bind m k s = k a s'.
Proof. intros H. unfold bind. now rewrite H. Qed.

Lemma bind_exit {A B} (m : M A) (k : A -> M B) s code s' :
  m s = (SysExit code, s') -> bind m k s = (SysExit code, s').
Proof. intros H. unfold bind. now rewrite H. Qed.

Lemma bind_raised {A B} (m : M A) (k : A -> M B) s e s' :
  m s = (Raised e, s') -> bind m k s = (Raised e, s').
Proof. intros H. unfold bind. now rewrite H. Qed.

Lemma bind_inv_return {A B} (m : M A) (k : A -> M B) s b s' :
  bind m k s = (Return b, s') ->
  exists a s1, m s = (Return a, s1) /\ k a s1 = (Return b, s').
Proof.
  unfold bind. destruct (m s) as [[a | code | e] s1]; intros H.
  - now exists a, s1.
  - discriminate.
  - discriminate.
Qed.

Lemma lift_inv_return {A} (r : exn + A) s a s' :
  lift r s = (Return a, s') -> r = inr a /\ s' = s.
Proof.
  destruct r as [e | x]; cbn; intros H; inversion H; auto.
Qed.

(** ** Blank prompts *)

Lemma dropwhile_all {A} (p : A -> bool) (l : list A) :
  forallb p l = true -> dropwhile p l = [].
Proof.
  induction l as [|x r IH]; cbn; [reflexivity|].
  intros H. apply andb_true_iff in H. destruct H as [Hx Hr].
  rewrite Hx. now apply IH.
Qed.

Lemma strip_blank (s : string) :
  forallb isspace (chars s) = true -> strip s = "".
Proof.
  intros H. unfold strip. now rewrite (dropwhile_all _ _ H).
Qed.

(** C2.  A prompt that is empty or made of white space only ends the run
    with status 1 after the single message [EmptyPrompt]: nothing is sent to
    the server, the file system is untouched. *)
Theorem blank_prompt_exits_before_request (w : world) (args : Namespace) (fs : filesys) :
  forallb isspace (chars (prompt args)) = true ->
  run w args fs = (SysExit 1, {| files := fs; log := [Stderr EmptyPrompt] |})
  /\ exit_status (fst (run w args fs)) <> 0%Z
  /\ existsb is_request (log (snd (run w args fs))) = false.
Proof.
  intros H.
  assert (E : run w args fs
              = (SysExit 1, {| files := fs; log := [Stderr EmptyPrompt] |})).
  { unfold run, main. rewrite (strip_blank _ H). reflexivity. }
  rewrite E. repeat split. cbn. discriminate.
Qed.

Lemma blank_prompt_witness :
  forallb isspace (chars "  ") = true /\
  run (sample_world TimedOut) {| prompt := "  "; output := "o.png" |} empty_fs
  = (SysExit 1, {| files := empty_fs; log := [Stderr EmptyPrompt] |}).
Proof.
  split; [reflexivity|].
  apply (blank_prompt_exits_before_request (sample_world TimedOut)
           {| prompt := "  "; output := "o.png" |} empty_fs).
  reflexivity.
Defined.

(** ** The API key *)

Lemma get_api_key_missing (w : world) (s : state) :
  environ w "GEMINI_API_KEY" = None \/ environ w "GEMINI_API_KEY" = Some "" ->
  get_api_key w s
  = (SysExit 1, {| files := files s; log := log s ++ [Stderr NoApiKey] |}).
Proof.
  intros [H | H]; unfold get_api_key; rewrite H; reflexivity.
Qed.

Lemma generate_image_missing_key (w : world) (p : string) (s : state) :
  environ w "GEMINI_API_KEY" = None \/ environ w "GEMINI_API_KEY" = Some "" ->
  generate_image w p s
  = (SysExit 1, {| files := files s; log := log s ++ [Stderr NoApiKey] |}).
Proof.
  intros H. unfold generate_image.
  apply bind_exit. now apply get_api_key_missing.
Qed.

(** C3.  Without [GEMINI_API_KEY], or with an empty one, the run ends with
    status 1: its last act is a message on standard error (the prompt check
    of [main] comes first, so a blank prompt is reported instead of the
    key), no request is sent and the file system is untouched.  The same
    holds of [generate_image] on its own. *)
Theorem missing_api_key_exits_before_request
    (w : world) (args : Namespace) (fs : filesys) :
  environ w "GEMINI_API_KEY" = None \/ environ w "GEMINI_API_KEY" = Some "" ->
  run w args fs
  = (SysExit 1,
     {| files := fs;
        log := if is_empty (strip (prompt args))
               then [Stderr EmptyPrompt]
               else [Stdout (Generating (prefix_to 50 (prompt args))
                               (Nat.ltb 50 (String.length (prompt args))));
                     Stderr NoApiKey] |})
  /\ existsb is_request (log (snd (run w args fs))) = false
  /\ forall p s, generate_image w p s
       = (SysExit 1, {| files := files s; log := log s ++ [Stderr NoApiKey] |}).
Proof.
  intros H.
  assert (E : run w args fs
    = (SysExit 1,
       {| files := fs;
          log := if is_empty (strip (prompt args))
                 then [Stderr EmptyPrompt]
                 else [Stdout (Generating (prefix_to 50 (prompt args))
                                 (Nat.ltb 50 (String.length (prompt args))));
                       Stderr NoApiKey] |})).
  { unfold run, main.
    destruct (is_empty (strip (prompt args))) eqn:B; [reflexivity|].
    cbn [bind ret print emit files log app].
    rewrite (bind_exit _ _ _ _ _ (generate_image_missing_key w _ _ H)).
    reflexivity. }
  split; [exact E|]. split.
  - rewrite E. cbn [snd log]. now destruct (is_empty (strip (prompt args))).
  - intros p s. now apply generate_image_missing_key.
Qed.

Lemma missing_api_key_witness :
  (environ keyless_world "GEMINI_API_KEY" = None
   \/ environ keyless_world "GEMINI_API_KEY" = Some "") /\
  fst (run keyless_world sample_args empty_fs) = SysExit 1.
Proof.
  split; [left; reflexivity|].
  rewrite (proj1 (missing_api_key_exits_before_request
                    keyless_world sample_args empty_fs (or_introl eq_refl))).
  reflexivity.
Defined.

(** ** The extractor *)

(** What the extractor does at the inline-data object it selects. *)
Lemma for_part_in_selected before part after d s :
  Forall plain_part before ->
  lookup_key "inlineData" part = Some (JObj d) ->
  for_part_in (before ++ JObj part :: after) s =
  if truthy (payload d) then
    match b64decode (payload d) with
    | inr image_bytes => (Return (image_bytes, mime d), s)
    | inl e =>
        (SysExit 1, {| files := files s; log := log s ++ [Stderr (DecodeFailed e)] |})
    end
  else (SysExit 1, {| files := files s; log := log s ++ [Stderr EmptyImageData] |}).
Proof.
  intros Hb Hd. induction Hb as [|q before Hq Hb IH].
  - cbn [app for_part_in py_in]. rewrite Hd.
    cbn [lift bind ret py_item]. rewrite Hd.
    cbn [lift bind ret py_get]. fold (mime d). fold (payload d).
    destruct (truthy (payload d)); cbn [negb].
    + destruct (b64decode (payload d)); reflexivity.
    + reflexivity.
  - cbn [app for_part_in]. unfold plain_part in Hq. rewrite Hq.
    cbn [lift bind ret]. exact IH.
Qed.

Lemma extract_selected response d s :
  selects response d ->
  extract_image_data response s =
  if truthy (payload d) then
    match b64decode (payload d) with
    | inr image_bytes => (Return (image_bytes, mime d), s)
    | inl e =>
        (SysExit 1, {| files := files s; log := log s ++ [Stderr (DecodeFailed e)] |})
    end
  else (SysExit 1, {| files := files s; log := log s ++ [Stderr EmptyImageData] |}).
Proof.
  intros H. destruct H as [top candidate more content before part after d Hc Hn Hp Hb Hd].
  unfold extract_image_data. cbn [py_get]. rewrite Hc.
  cbn [lift bind ret truthy negb py_first py_get]. rewrite Hn.
  cbn [lift bind ret py_get]. rewrite Hp.
  cbn [lift bind ret py_iter].
  now apply for_part_in_selected.
Qed.

Lemma py_in_obj_true part :
  py_in "inlineData" part = inr true ->
  forall v, py_item part "inlineData" = inr v ->
  exists items, part = JObj items /\ lookup_key "inlineData" items = Some v.
Proof.
  intros _ v Hv. destruct part; try discriminate.
  cbn in Hv. destruct (lookup_key "inlineData" items) eqn:E; [|discriminate].
  inversion Hv; subst. now exists items.
Qed.

Lemma for_part_in_inv_return items s image_bytes m s' :
  for_part_in items s = (Return (image_bytes, m), s') ->
  exists before part after d,
    items = before ++ JObj part :: after /\
    Forall plain_part before /\
    lookup_key "inlineData" part = Some (JObj d) /\
    truthy (payload d) = true /\
    b64decode (payload d) = inr image_bytes /\
    m = mime d /\ s' = s.
Proof.
  induction items as [|part rest IH]; cbn [for_part_in]; intros H.
  - discriminate.
  - apply bind_inv_return in H. destruct H as (found & s1 & Hf & H).
    apply lift_inv_return in Hf. destruct Hf as [Hf ->].
    destruct found.
    + apply bind_inv_return in H. destruct H as (inline_data & s1 & Hi & H).
      apply lift_inv_return in Hi. destruct Hi as [Hi ->].
      destruct (py_in_obj_true _ Hf _ Hi) as (p & -> & Hp).
      apply bind_inv_return in H. destruct H as (mt & s1 & Hm & H).
      apply lift_inv_return in Hm. destruct Hm as [Hm ->].
      apply bind_inv_return in H. destruct H as (data & s1 & Hd & H).
      apply lift_inv_return in Hd. destruct Hd as [Hd ->].
      destruct inline_data as [| | | | | |d]; try discriminate.
      cbn in Hm, Hd. inversion Hm; subst mt. inversion Hd; subst data.
      fold (payload d) in H. fold (mime d).
      destruct (truthy (payload d)) eqn:T; cbn [negb] in H; [|discriminate].
      destruct (b64decode (payload d)) as [e|bytes] eqn:D; [discriminate|].
      inversion H; subst.
      exists [], p, rest, d. repeat split; auto.
    + destruct (IH H) as (before & p & after & d & -> & Hb & Hd & T & D & Hm & Hs).
      exists (part :: before), p, after, d. repeat split; auto.
Qed.

Lemma extract_inv_return response s image_bytes m s' :
  extract_image_data response s = (Return (image_bytes, m), s') ->
  exists d,
    selects response d /\ truthy (payload d) = true /\
    b64decode (payload d) = inr image_bytes /\ m = mime d /\ s' = s.
Proof.
  unfold extract_image_data. intros H.
  apply bind_inv_return in H. destruct H as (candidates & s1 & Hc & H).
  apply lift_inv_return in Hc. destruct Hc as [Hc ->].
  destruct response as [| | | | | |top]; try discriminate.
  destruct (truthy candidates) eqn:T; cbn [negb] in H; [|discriminate].
  apply bind_inv_return in H. destruct H as (candidate & s1 & Hn & H).
  apply lift_inv_return in Hn. destruct Hn as [Hn ->].
  apply bind_inv_return in H. destruct H as (content & s1 & Ht & H).
  apply lift_inv_return in Ht. destruct Ht as [Ht ->].
  apply bind_inv_return in H. destruct H as (parts & s1 & Hp & H).
  apply lift_inv_return in Hp. destruct Hp as [Hp ->].
  apply bind_inv_return in H. destruct H as (items & s1 & Hi & H).
  apply lift_inv_return in Hi. destruct Hi as [Hi ->].
  apply for_part_in_inv_return in H.
  destruct H as (before & part & after & d & -> & Hb & Hd & Td & D & Hm & Hs).
  exists d. repeat split; auto.
  (* the candidate is an object, so the candidates are a list *)
  destruct candidate as [| | | | | |cand]; try discriminate.
  assert (exists more, candidates = JArr (JObj cand :: more)) as [more ->].
  { destruct candidates as [| | | |str0|l|o]; try discriminate.
    - cbn in Hn. destruct (chars str0); discriminate.
    - destruct l as [|x l]; [discriminate|]. cbn in Hn. inversion Hn. now exists l. }
  cbn in Hc. destruct (lookup_key "candidates" top) as [c|] eqn:Ec;
    [|discriminate]. inversion Hc; subst c.
  (* the parts are a list that holds an object, so the content is an object *)
  assert (parts = JArr (before ++ JObj part :: after)) as ->.
  { destruct parts as [| | | |str0|l|o]; try discriminate.
    - unfold py_iter in Hi. inversion Hi as [E]. exfalso.
      assert (In (JObj part) (before ++ JObj part :: after)) as I by apply in_elt.
      rewrite <- E in I.
      apply in_map_iff in I. destruct I as (c & Habs & _). discriminate.
    - cbn in Hi. now inversion Hi.
    - unfold py_iter in Hi. inversion Hi as [E]. exfalso.
      assert (In (JObj part) (before ++ JObj part :: after)) as I by apply in_elt.
      rewrite <- E in I.
      apply in_map_iff in I. destruct I as (c & Habs & _). discriminate. }
  destruct content as [| | | | | |ct]; try discriminate.
  cbn in Hp. destruct (lookup_key "parts" ct) as [pv|] eqn:Ep.
  2:{ inversion Hp as [E]. destruct before; discriminate. }
  inversion Hp; subst pv.
  cbn in Ht. destruct (lookup_key "content" cand) as [cv|] eqn:Et.
  2:{ inversion Ht; subst ct. discriminate. }
  inversion Ht; subst cv.
  eapply selects_first; eauto.
Qed.

Lemma sample_selects data before after more :
  Forall plain_part before ->
  selects (sample_response (before ++ sample_part data :: after) more)
          [("mimeType", JStr "image/png"); ("data", data)].
Proof.
  intros H. unfold sample_response, sample_part.
  eapply selects_first; try reflexivity. exact H.
Qed.

(** C8.  Let [d] be the inline-data object the extractor selects.  If its
    payload is empty, or if [b64decode] raises on it, the extractor prints a
    message on standard error and exits with status 1; if the payload is
    not empty and decodes, it returns the bytes and the mime type.  And it
    returns only then: whenever it returns, it selected an inline-data
    object whose payload is not empty and decodes to the returned bytes. *)
Theorem extractor_fails_unless_payload_decodes response d s :
  selects response d ->
  (truthy (payload d) = false ->
   extract_image_data response s
   = (SysExit 1, {| files := files s; log := log s ++ [Stderr EmptyImageData] |}))
  /\ (forall e, b64decode (payload d) = inl e ->
      extract_image_data response s
      = (SysExit 1,
         {| files := files s;
            log := log s ++ [Stderr (if truthy (payload d)
                                     then DecodeFailed e else EmptyImageData)] |}))
  /\ (forall image_bytes,
      truthy (payload d) = true -> b64decode (payload d) = inr image_bytes ->
      extract_image_data response s = (Return (image_bytes, mime d), s))
  /\ (forall r s0 image_bytes m s',
      extract_image_data r s0 = (Return (image_bytes, m), s') ->
      exists d',
        selects r d' /\ truthy (payload d') = true /\
        b64decode (payload d') = inr image_bytes /\ m = mime d' /\ s' = s0).
Proof.
  intros H. pose proof (extract_selected response d s H) as E.
  repeat split.
  - intros T. now rewrite E, T.
  - intros e D. rewrite E, D. now destruct (truthy (payload d)).
  - intros b T D. now rewrite E, T, D.
  - intros r s0 b m s'. apply extract_inv_return.
Qed.

Lemma extractor_fails_witness :
  selects (sample_response [sample_part (JStr "Q")] [])
          [("mimeType", JStr "image/png"); ("data", JStr "Q")] /\
  extract_image_data (sample_response [sample_part (JStr "Q")] []) (start empty_fs)
  = (SysExit 1,
     {| files := empty_fs;
        log := [Stderr (DecodeFailed (OneMoreThanMultipleOf4 1))] |}).
Proof.
  pose proof (sample_selects (JStr "Q") [] [] [] (Forall_nil _)) as S.
  split; [exact S|].
  exact (proj1 (proj2 (extractor_fails_unless_payload_decodes _ _ (start empty_fs) S))
           (OneMoreThanMultipleOf4 1) eq_refl).
Defined.

(** C5.  A response object without a [candidates] key, or whose
    [candidates] is the empty list, makes the extractor print the message
    "Error: No candidates in response" on standard error and exit with
    status 1. *)
Theorem no_candidates_exits top s :
  lookup_key "candidates" top = None \/ lookup_key "candidates" top = Some (JArr []) ->
  extract_image_data (JObj top) s
  = (SysExit 1, {| files := files s; log := log s ++ [Stderr NoCandidates] |})
  /\ fixed_text NoCandidates = "Error: No candidates in response"
  /\ exit_status (fst (extract_image_data (JObj top) s)) <> 0%Z.
Proof.
  intros H.
  assert (E : extract_image_data (JObj top) s
    = (SysExit 1, {| files := files s; log := log s ++ [Stderr NoCandidates] |})).
  { unfold extract_image_data. cbn [py_get].
    destruct H as [H | H]; rewrite H; reflexivity. }
  rewrite E. repeat split. cbn. discriminate.
Qed.

Lemma no_candidates_witness :
  (lookup_key "candidates" [("promptFeedback", JObj [])] = None
   \/ lookup_key "candidates" [("promptFeedback", JObj [])] = Some (JArr [])) /\
  extract_image_data (JObj [("promptFeedback", JObj [])]) (start empty_fs)
  = (SysExit 1, {| files := empty_fs; log := [Stderr NoCandidates] |}).
Proof.
  split; [left; reflexivity|].
  exact (proj1 (no_candidates_exits [("promptFeedback", JObj [])] (start empty_fs)
                  (or_introl eq_refl))).
Defined.

(** ** From [main] to the extractor *)

Lemma main_after_response w args response s :
  answers w args response ->
  exists api_key,
    main w args s
    = finish args response
        {| files := files s; log := log s ++ log_to_request api_key args |}.
Proof.
  intros (B & api_key & text & K & N & U). exists api_key.
  unfold main. rewrite B.
  cbn [bind ret print emit files log].
  unfold generate_image, get_api_key. rewrite K, N.
  cbv [bind ret print emit files log]. rewrite U.
  unfold finish, log_to_request. cbv [bind ret print emit files log].
  rewrite <- app_assoc. reflexivity.
Qed.

Lemma finish_exit args response s code s' :
  extract_image_data response s = (SysExit code, s') ->
  finish args response s = (SysExit code, s').
Proof. intros H. unfold finish. now apply bind_exit. Qed.

(** C10.  Only the first candidate is read, and the first part with an
    [inlineData] key decides: when the payload of that part is empty the
    extractor exits with status 1 and the message [EmptyImageData],
    whatever the parts [after] it and the candidates [more] after the first
    hold.  A run that receives such a response ends with status 1 and writes
    no file. *)
Theorem first_inline_part_decides
    top candidate more content before part after d s :
  lookup_key "candidates" top = Some (JArr (JObj candidate :: more)) ->
  lookup_key "content" candidate = Some (JObj content) ->
  lookup_key "parts" content = Some (JArr (before ++ JObj part :: after)) ->
  Forall plain_part before ->
  lookup_key "inlineData" part = Some (JObj d) ->
  truthy (payload d) = false ->
  extract_image_data (JObj top) s
  = (SysExit 1, {| files := files s; log := log s ++ [Stderr EmptyImageData] |})
  /\ forall w args fs,
       answers w args (JObj top) ->
       fst (run w args fs) = SysExit 1 /\ files (snd (run w args fs)) = fs.
Proof.
  intros Hc Hn Hp Hb Hd T.
  assert (S : selects (JObj top) d) by (eapply selects_first; eauto).
  assert (E : forall s, extract_image_data (JObj top) s
    = (SysExit 1, {| files := files s; log := log s ++ [Stderr EmptyImageData] |})).
  { intros s0. now rewrite (extract_selected _ _ s0 S), T. }
  split; [apply E|].
  intros w args fs A. unfold run.
  destruct (main_after_response w args (JObj top) (start fs) A) as [k ->].
  rewrite (finish_exit _ _ _ _ _ (E _)). split; reflexivity.
Qed.

Lemma first_inline_part_witness :
  truthy (payload [("mimeType", JStr "image/png"); ("data", JStr "")]) = false /\
  b64decode (JStr "QUJD") = inr ["A"%byte; "B"%byte; "C"%byte] /\
  extract_image_data
    (sample_response
       [JObj [("text", JStr "here it is")];
        sample_part (JStr "");
        sample_part (JStr "QUJD")]
       [JObj [("content", JObj [("parts", JArr [sample_part (JStr "QUJD")])])]])
    (start empty_fs)
  = (SysExit 1, {| files := empty_fs; log := [Stderr EmptyImageData] |}).
Proof.
  split; [reflexivity|]. split; [reflexivity|].
  refine (proj1 (first_inline_part_decides
    [("candidates",
      JArr (JObj [("content",
                   JObj [("role", JStr "model");
                         ("parts",
                          JArr [JObj [("text", JStr "here it is")];
                                sample_part (JStr "");
                                sample_part (JStr "QUJD")])])]
            :: [JObj [("content",
                       JObj [("parts", JArr [sample_part (JStr "QUJD")])])]]))]
    [("content",
      JObj [("role", JStr "model");
            ("parts",
             JArr [JObj [("text", JStr "here it is")];
                   sample_part (JStr "");
                   sample_part (JStr "QUJD")])])]
    [JObj [("content", JObj [("parts", JArr [sample_part (JStr "QUJD")])])]]
    [("role", JStr "model");
     ("parts",
      JArr [JObj [("text", JStr "here it is")];
            sample_part (JStr "");
            sample_part (JStr "QUJD")])]
    [JObj [("text", JStr "here it is")]]
    [("inlineData", JObj [("mimeType", JStr "image/png"); ("data", JStr "")])]
    [sample_part (JStr "QUJD")]
    [("mimeType", JStr "image/png"); ("data", JStr "")]
    (start empty_fs)
    eq_refl eq_refl eq_refl _ eq_refl eq_refl)).
  constructor; [reflexivity | constructor].
Defined.

(** ** Exit statuses *)



Lemma handled_ret {A} (a : A) s : handled (ret a s).
Proof. exact I. Qed.

Lemma handled_raise {A} e s : handled (raise e s : outcome A * state).
Proof. exact I. Qed.












(** ** HTTP errors *)

Lemma main_after_http_error w args code fp s :
  fails_with w args code fp ->
  exists api_key,
    main w args s
    = match fp with
      | Some Undecodable =>
          (Raised (DuringHandling (HTTPErrorRaised code) UnicodeDecodeError),
           {| files := files s; log := log s ++ log_to_request api_key args |})
      | _ =>
          (SysExit 1,
           {| files := files s;
              log := log s ++ log_to_request api_key args
                     ++ Stderr (RequestFailed code) :: details fp |})
      end.
Proof.
  intros (B & api_key & K & N & U). exists api_key.
  unfold main. rewrite B.
  unfold generate_image, get_api_key. rewrite K, N.
  cbv [bind ret print emit files log]. rewrite U.
  unfold log_to_request, details.
  destruct fp as [[| text | text error_json]|];
    cbv [bind ret print_stderr emit raise sys_exit files log];
    try destruct (is_empty text);
    rewrite <- ?app_assoc; reflexivity.
Qed.

(** An HTTP error whose body is absent or is text is reported: the status
    line with the code, the details line when the text is not empty, then
    exit status 1. *)
Lemma http_error_reported w args fs code fp :
  fails_with w args code fp -> fp <> Some Undecodable ->
  exists api_key,
    run w args fs
    = (SysExit 1,
       {| files := fs;
          log := log_to_request api_key args
                 ++ Stderr (RequestFailed code) :: details fp |}).
Proof.
  intros F N. unfold run.
  destruct (main_after_http_error w args code fp (start fs) F) as [k E].
  exists k. rewrite E.
  destruct fp as [[| |]|]; try reflexivity. now contradiction N.
Qed.

Lemma http_error_undecodable w args fs code :
  fails_with w args code (Some Undecodable) ->
  exists api_key,
    run w args fs
    = (Raised (DuringHandling (HTTPErrorRaised code) UnicodeDecodeError),
       {| files := fs; log := log_to_request api_key args |}).
Proof.
  intros F. unfold run.
  destruct (main_after_http_error w args code _ (start fs) F) as [k E].
  exists k. exact E.
Qed.

(** C6.  Every HTTP error ends the run with status 1 and puts the numeric
    status code on standard error.  When the body is absent or is text, the
    script prints the status line with the code, then the details: the
    parsed document when the text is JSON, the raw text otherwise.  When the
    body is not UTF-8, decoding it raises inside the handler, before the
    status line, and the interpreter prints the traceback of that exception
    with its context, the [HTTPError] and its code. *)
Theorem http_error_surfaces_status w args fs code fp :
  fails_with w args code fp ->
  exit_status (fst (run w args fs)) = 1%Z
  /\ existsb (surfaces_status code) (standard_error (run w args fs)) = true
  /\ (fp <> Some Undecodable ->
      exists api_key,
        run w args fs
        = (SysExit 1,
           {| files := fs;
              log := log_to_request api_key args
                     ++ Stderr (RequestFailed code) :: details fp |}))
  /\ (fp = Some Undecodable ->
      exists api_key,
        run w args fs
        = (Raised (DuringHandling (HTTPErrorRaised code) UnicodeDecodeError),
           {| files := fs; log := log_to_request api_key args |})).
Proof.
  intros F. unfold run.
  destruct (main_after_http_error w args code fp (start fs) F) as [k E].
  assert (C : (code =? code)%Z = true) by apply Z.eqb_refl.
  rewrite E. destruct fp as [[| text | text error_json]|].
  - split; [reflexivity|]. split.
    + unfold standard_error, log_to_request. cbn. now rewrite C.
    + split; [intros N; now contradiction N | intros _; now exists k].
  - split; [reflexivity|]. split.
    + unfold standard_error, log_to_request. cbn. now rewrite C.
    + split; [intros _; now exists k | discriminate].
  - split; [reflexivity|]. split.
    + unfold standard_error, log_to_request. cbn. now rewrite C.
    + split; [intros _; now exists k | discriminate].
  - split; [reflexivity|]. split.
    + unfold standard_error, log_to_request. cbn. now rewrite C.
    + split; [intros _; now exists k | discriminate].
Qed.

Lemma http_error_surfaces_witness :
  fails_with (sample_world (HTTPError 500 (Some Undecodable))) sample_args
             500 (Some Undecodable)
  /\ exit_status
       (fst (run (sample_world (HTTPError 500 (Some Undecodable)))
                 sample_args empty_fs)) = 1%Z
  /\ standard_error
       (run (sample_world (HTTPError 500 (Some Undecodable))) sample_args empty_fs)
     = [Traceback (DuringHandling (HTTPErrorRaised 500) UnicodeDecodeError)]
  /\ existsb (surfaces_status 500)
       (standard_error
          (run (sample_world (HTTPError 500 (Some Undecodable)))
               sample_args empty_fs)) = true.
Proof.
  assert (F : fails_with (sample_world (HTTPError 500 (Some Undecodable)))
                sample_args 500 (Some Undecodable)).
  { split; [reflexivity|]. exists "secret". repeat split. }
  split; [exact F|].
  destruct (http_error_surfaces_status _ _ empty_fs _ _ F) as (S & T & _).
  split; [exact S|]. split; [reflexivity | exact T].
Defined.

(** ** The mime type is not used *)

Lemma lookup_key_at_key key f items :
  lookup_key key
    (map (fun kv : string * json =>
            if String.eqb (fst kv) key then (fst kv, f (snd kv)) else kv) items)
  = option_map f (lookup_key key items).
Proof.
  induction items as [|[k v] rest IH]; cbn [map lookup_key fst snd]; [reflexivity|].
  destruct (String.eqb k key) eqn:E; cbn [lookup_key]; rewrite E; [reflexivity | exact IH].
Qed.

Lemma lookup_key_without_mime key d :
  String.eqb "mimeType" key = false ->
  lookup_key key (filter (fun kv : string * json => negb (String.eqb (fst kv) "mimeType")) d)
  = lookup_key key d.
Proof.
  intros N. induction d as [|[k v] rest IH]; cbn [filter lookup_key fst]; [reflexivity|].
  destruct (String.eqb k "mimeType") eqn:E; cbn [negb].
  - apply String.eqb_eq in E. subst k. rewrite N. exact IH.
  - cbn [lookup_key]. rewrite IH. reflexivity.
Qed.

Lemma for_part_in_without_mime items s :
  bytes_only (for_part_in (map (at_key "inlineData" without_mime) items) s)
  = bytes_only (for_part_in items s).
Proof.
  induction items as [|part rest IH]; [reflexivity|].
  destruct part as [| b | n | f | str0 | l | ps];
    try (cbn [map at_key for_part_in];
         destruct (py_in "inlineData" _) as [e | [|]];
         cbn [lift bind ret raise]; [reflexivity | reflexivity | exact IH]).
  cbn [map at_key for_part_in py_in]. rewrite lookup_key_at_key.
  destruct (lookup_key "inlineData" ps) as [v|] eqn:E; cbn [option_map].
  - cbn [lift bind ret py_item]. rewrite lookup_key_at_key, E. cbn [option_map].
    destruct v as [| b | n | f | str0 | l | d]; try reflexivity.
    cbn [lift bind ret without_mime py_get].
    rewrite (lookup_key_without_mime "data" d eq_refl).
    destruct (negb (truthy match lookup_key "data" d with
                           | Some x => x
                           | None => JStr ""
                           end)); [reflexivity|].
    destruct (b64decode _); reflexivity.
  - cbn [lift bind ret]. exact IH.
Qed.

Lemma extract_erase_mime response s :
  bytes_only (extract_image_data (erase_mime response) s)
  = bytes_only (extract_image_data response s).
Proof.
  destruct response as [| | | | | | top]; try reflexivity.
  unfold extract_image_data, erase_mime. cbn [at_key py_get].
  rewrite lookup_key_at_key.
  destruct (lookup_key "candidates" top) as [candidates|]; [|reflexivity].
  cbn [option_map lift bind ret].
  destruct candidates as [| | | | | [|candidate more] |]; try reflexivity.
  cbn [at_first truthy negb py_first lift bind ret].
  destruct candidate as [| | | | | | cand]; try reflexivity.
  cbn [at_key py_get]. rewrite lookup_key_at_key.
  destruct (lookup_key "content" cand) as [content|]; [|reflexivity].
  cbn [option_map lift bind ret].
  destruct content as [| | | | | | ct]; try reflexivity.
  cbn [at_key py_get]. rewrite lookup_key_at_key.
  destruct (lookup_key "parts" ct) as [parts|]; [|reflexivity].
  cbn [option_map lift bind ret].
  destruct parts as [| | | | | items |]; try reflexivity.
  cbn [at_each py_iter lift bind ret].
  apply for_part_in_without_mime.
Qed.

Lemma finish_bytes_only args response s :
  finish args response s
  = match bytes_only (extract_image_data response s) with
    | (Return image_bytes, s1) =>
        (save_image image_bytes (output args) ;; print (ImageSaved (output args))) s1
    | (SysExit code, s1) => (SysExit code, s1)
    | (Raised e, s1) => (Raised e, s1)
    end.
Proof.
  unfold finish, bytes_only, bind at 1.
  destruct (extract_image_data response s) as [[x | code | e] s1]; reflexivity.
Qed.

Lemma finish_erase_mime args x y s :
  erase_mime x = erase_mime y -> finish args x s = finish args y s.
Proof.
  intros E. rewrite !finish_bytes_only.
  now rewrite <- (extract_erase_mime x), <- (extract_erase_mime y), E.
Qed.

(** C9.  Two runs that differ at most in the [mimeType] fields of the
    server's answer are the same run: same result, same log, in which the
    write of the same bytes at the same path is recorded, and same file
    system at the end. *)
Theorem mime_type_is_not_used (w1 w2 : world) (args : Namespace) (fs : filesys) :
  (forall name, environ w1 name = environ w2 name) ->
  (forall r, same_but_mime (urlopen w1 r) (urlopen w2 r)) ->
  run w1 args fs = run w2 args fs.
Proof.
  intros He Hu. unfold run, main.
  destruct (is_empty (strip (prompt args))); [reflexivity|].
  unfold generate_image, get_api_key. rewrite He.
  destruct (environ w2 "GEMINI_API_KEY") as [k|]; [|reflexivity].
  destruct (is_empty k); [reflexivity|].
  cbv [bind ret print emit files log start].
  specialize (Hu (build_request k (prompt args))). unfold same_but_mime in Hu.
  destruct (urlopen w1 (build_request k (prompt args))) as [[| t1 | t1 x] | | | |];
    try (rewrite <- Hu; reflexivity).
  destruct (urlopen w2 (build_request k (prompt args))) as [[| t2 | t2 y] | | | |];
    try discriminate.
  exact (finish_erase_mime args x y _ Hu).
Qed.

Lemma mime_type_witness :
  run (sample_world (Response (Document "" (sample_response [sample_part (JStr "QUJD")] []))))
      sample_args empty_fs
  = run (sample_world
           (Response (Document ""
              (sample_response
                 [JObj [("inlineData",
                         JObj [("mimeType", JStr "image/jpeg"); ("data", JStr "QUJD")])]]
                 []))))
        sample_args empty_fs.
Proof.
  apply mime_type_is_not_used.
  - reflexivity.
  - intros r. reflexivity.
Defined.

(** ** Paths *)

Lemma dropwhile_span {A} (p : A -> bool) (l : list A) :
  exists t, l = t ++ dropwhile p l /\ forallb p t = true.
Proof.
  induction l as [|x r (t & E & F)]; cbn [dropwhile].
  - now exists [].
  - destruct (p x) eqn:P.
    + exists (x :: t). cbn. rewrite P, F. split; [now f_equal | reflexivity].
    + now exists [].
Qed.

Lemma dropwhile_head {A} (p : A -> bool) (l : list A) x r :
  dropwhile p l = x :: r -> p x = false.
Proof.
  induction l as [|y l IH]; cbn [dropwhile]; [discriminate|].
  destruct (p y) eqn:P; [exact IH|]. intros E. inversion E; subst. exact P.
Qed.

Lemma forallb_rev {A} (p : A -> bool) (l : list A) :
  forallb p (rev l) = forallb p l.
Proof.
  induction l as [|x r IH]; [reflexivity|].
  cbn [rev forallb]. rewrite forallb_app, IH. cbn. now rewrite andb_true_r, andb_comm.
Qed.

(** A path splits at its last slash: the head is empty or ends with the
    slash, the tail has none. *)
Lemma split_at_last_sep (l : list ascii) :
  exists tail,
    l = rdropwhile (fun c => negb (is_sep c)) l ++ tail /\
    forallb (fun c => negb (is_sep c)) tail = true /\
    (rdropwhile (fun c => negb (is_sep c)) l = []
     \/ exists a, rdropwhile (fun c => negb (is_sep c)) l = a ++ [sep]).
Proof.
  unfold rdropwhile.
  destruct (dropwhile_span (fun c => negb (is_sep c)) (rev l)) as (t & E & F).
  exists (rev t). repeat split.
  - rewrite <- rev_app_distr, <- E. symmetry. apply rev_involutive.
  - now rewrite forallb_rev.
  - destruct (dropwhile (fun c => negb (is_sep c)) (rev l)) as [|x r] eqn:D.
    + now left.
    + right. exists (rev r). cbn [rev].
      apply dropwhile_head in D. apply negb_false_iff in D.
      apply Ascii.eqb_eq in D. now subst x.
Qed.

Lemma segments_not_nil (l : list ascii) : segments l <> [].
Proof.
  destruct l as [|c r]; cbn [segments]; [discriminate|].
  destruct (is_sep c); [discriminate|]. destruct (segments r); discriminate.
Qed.

Lemma segments_app_sep (a b : list ascii) :
  segments (a ++ sep :: b) = segments a ++ segments b.
Proof.
  induction a as [|c a IH]; [reflexivity|].
  cbn [app segments]. destruct (is_sep c); [now rewrite IH|].
  rewrite IH. pose proof (segments_not_nil a) as N.
  destruct (segments a); [contradiction | reflexivity].
Qed.

Lemma segments_no_sep (l : list ascii) :
  forallb (fun c => negb (is_sep c)) l = true -> segments l = [l].
Proof.
  induction l as [|c r IH]; [reflexivity|].
  cbn [forallb segments]. intros H. apply andb_true_iff in H. destruct H as [Hc Hr].
  apply negb_true_iff in Hc. rewrite Hc, (IH Hr). reflexivity.
Qed.

Lemma filter_segments_sep_end (a : list ascii) :
  filter is_name (segments (a ++ [sep])) = filter is_name (segments a).
Proof.
  rewrite segments_app_sep, filter_app. cbn. apply app_nil_r.
Qed.

Lemma filter_segments_rstrip (l : list ascii) :
  filter is_name (segments (rdropwhile is_sep l)) = filter is_name (segments l).
Proof.
  unfold rdropwhile. rewrite <- (rev_involutive l) at 2.
  induction (rev l) as [|c r IH]; [reflexivity|].
  cbn [dropwhile]. destruct (is_sep c) eqn:S; [|reflexivity].
  apply Ascii.eqb_eq in S. subst c.
  cbn [rev]. now rewrite filter_segments_sep_end.
Qed.

Lemma rdropwhile_prefix {A} (p : A -> bool) (l : list A) :
  exists t, l = rdropwhile p l ++ t.
Proof.
  unfold rdropwhile. destruct (dropwhile_span p (rev l)) as (t & E & _).
  exists (rev t). rewrite <- rev_app_distr, <- E. symmetry. apply rev_involutive.
Qed.

Lemma rdropwhile_nil {A} (p : A -> bool) (l : list A) :
  rdropwhile p l = [] -> forallb p l = true.
Proof.
  unfold rdropwhile. intros H.
  destruct (dropwhile_span p (rev l)) as (t & E & F).
  assert (D : dropwhile p (rev l) = []).
  { destruct (dropwhile p (rev l)); [reflexivity|].
    cbn in H. now destruct (rev l0). }
  rewrite D, app_nil_r in E. rewrite <- forallb_rev, E. exact F.
Qed.

(** The segments of a path are those of its directory, then its last
    segment. *)
Lemma names_dirname (p : string) :
  let tail := last (segments (chars p)) [] in
  names p = names (dirname p) ++ (if is_name tail then [basename p] else [])
  /\ is_absolute (dirname p) = is_absolute p.
Proof.
  cbn zeta. unfold names, dirname, basename, is_absolute.
  destruct (split_at_last_sep (chars p)) as (tail & E & F & [H | [a H]]).
  - (* no slash at all *)
    rewrite H in *. cbn [app] in E. cbn [forallb].
    rewrite chars_str. rewrite E, (segments_no_sep _ F).
    cbn [last filter segments map app].
    split; [now destruct (is_name tail)|].
    destruct tail as [|c r]; [reflexivity|].
    cbn in F. apply andb_true_iff in F. destruct F as [F _].
    now apply negb_true_iff in F.
  - rewrite H in E |- *. set (head := a ++ [sep]) in *.
    assert (Es : segments (chars p) = segments a ++ [tail]).
    { rewrite E. unfold head. rewrite <- app_assoc. cbn [app].
      rewrite segments_app_sep, (segments_no_sep _ F). reflexivity. }
    assert (Ed : filter is_name
                   (segments (chars (if forallb is_sep head then str head
                                     else str (rdropwhile is_sep head))))
                 = filter is_name (segments a)).
    { destruct (forallb is_sep head); rewrite chars_str.
      - apply filter_segments_sep_end.
      - rewrite filter_segments_rstrip. apply filter_segments_sep_end. }
    split.
    + rewrite Ed, Es, last_last, filter_app, map_app. cbn [filter].
      now destruct (is_name tail).
    + destruct (forallb is_sep head) eqn:A; rewrite chars_str.
      * rewrite E. destruct head as [|c h] eqn:Hh; [|reflexivity].
        unfold head in Hh. now destruct a.
      * destruct (rdropwhile_prefix is_sep head) as (t & Et).
        destruct (rdropwhile is_sep head) as [|c h] eqn:R.
        { apply rdropwhile_nil in R. congruence. }
        rewrite E, Et. reflexivity.
Qed.

Lemma is_file_name_is_name (x : list ascii) :
  is_file_name (str x) = true -> is_name x = true.
Proof.
  unfold is_file_name, is_name. intros H.
  apply andb_true_iff in H. destruct H as [H _].
  apply andb_true_iff in H. destruct H as [H1 H2].
  destruct x; [discriminate | exact H2].
Qed.

Lemma names_of_file (p : string) :
  is_file_name (basename p) = true ->
  names p = names (dirname p) ++ [basename p]
  /\ is_absolute (dirname p) = is_absolute p.
Proof.
  intros H. destruct (names_dirname p) as [N A]. split; [|exact A].
  rewrite N. unfold basename in H. now rewrite (is_file_name_is_name _ H).
Qed.

(** ** The file system *)

Lemma key_eqb_eq (a b : key) : key_eqb a b = true <-> a = b.
Proof.
  unfold key_eqb. destruct a as [x k], b as [y l]. cbn [fst snd]. split.
  - intros H. apply andb_true_iff in H. destruct H as [H1 H2].
    apply Bool.eqb_prop in H1. destruct (list_eq_dec string_dec k l); [|discriminate].
    now subst.
  - intros H. inversion H; subst. rewrite Bool.eqb_reflx.
    now destruct (list_eq_dec string_dec l l).
Qed.

Lemma lookup_update_same fs k n :
  snd k <> [] -> lookup (update fs k n) k = Some n.
Proof.
  intros H. unfold lookup, update. destruct (snd k); [contradiction|].
  now rewrite (proj2 (key_eqb_eq k k) eq_refl).
Qed.

Lemma lookup_update_other fs k n k' :
  k <> k' -> lookup (update fs k n) k' = lookup fs k'.
Proof.
  intros H. unfold lookup, update. destruct (snd k'); [reflexivity|].
  destruct (key_eqb k k') eqn:E; [|reflexivity].
  apply key_eqb_eq in E. contradiction.
Qed.

Lemma path_key_of_file (p : string) :
  is_file_name (basename p) = true ->
  path_key p = (is_absolute p, names (dirname p) ++ [basename p])
  /\ path_key (dirname p) = (is_absolute p, names (dirname p)).
Proof.
  intros H. destruct (names_of_file p H) as [N A].
  unfold path_key. now rewrite N, A.
Qed.

(** A write that succeeds leaves the content at the path. *)
Lemma os_write_file_read p content fs fs' :
  os_write_file p content fs = (None, fs') -> read_file fs' p = Some content.
Proof.
  unfold os_write_file.
  destruct (String.eqb p ""); [discriminate|].
  destruct (is_file_name (basename p)) eqn:F; cbn [negb]; [|discriminate].
  destruct (path_key_of_file p F) as [K _].
  destruct (lookup fs (fst (path_key p), removelast (snd (path_key p))))
    as [[|c]|]; try discriminate.
  assert (R : read_file (update fs (path_key p) (File content)) p = Some content).
  { unfold read_file. rewrite lookup_update_same; [reflexivity|].
    rewrite K. cbn [snd]. now destruct (names (dirname p)). }
  destruct (lookup fs (path_key p)) as [[|c]|]; intros E; inversion E; subst; exact R.
Qed.

Lemma save_image_inv_return image_bytes output_path s path s' :
  save_image image_bytes output_path s = (Return path, s') ->
  path = output_path /\ read_file (files s') output_path = Some image_bytes
  /\ exists before, log s' = before ++ [WriteFile output_path image_bytes].
Proof.
  unfold save_image, except_IOError, bind, syscall, emit, ret.
  destruct (is_empty (dirname output_path)); cbn [files log].
  - destruct (os_write_file output_path image_bytes (files s)) as [[e|] fs'] eqn:W.
    + discriminate.
    + intros E. inversion E; subst. cbn [files log].
      split; [reflexivity|]. split; [now apply os_write_file_read in W|].
      eexists; reflexivity.
  - destruct (os_makedirs (dirname output_path) (files s)) as [[e|] fs1].
    + discriminate.
    + cbn [files log].
      destruct (os_write_file output_path image_bytes fs1) as [[e|] fs'] eqn:W.
      * discriminate.
      * intros E. inversion E; subst. cbn [files log].
        split; [reflexivity|]. split; [now apply os_write_file_read in W|].
        eexists; reflexivity.
Qed.

Lemma main_inv_return w args s u s' :
  main w args s = (Return u, s') ->
  exists response api_key,
    answers w args response /\
    finish args response
      {| files := files s; log := log s ++ log_to_request api_key args |}
    = (Return u, s').
Proof.
  intros H.
  destruct (is_empty (strip (prompt args))) eqn:B.
  { unfold main in H. rewrite B in H. discriminate. }
  destruct (environ w "GEMINI_API_KEY") as [k|] eqn:K.
  2:{ unfold main, generate_image, get_api_key in H. rewrite B, K in H. discriminate. }
  destruct (is_empty k) eqn:N.
  { unfold main, generate_image, get_api_key in H. rewrite B, K, N in H. discriminate. }
  destruct (urlopen w (build_request k (prompt args)))
    as [[| text | text response] | code fp | reason | | name] eqn:U;
    try (unfold main, generate_image, get_api_key in H; rewrite B, K, N in H;
         cbv [bind ret print emit files log] in H; rewrite U in H;
         discriminate).
  - assert (A : answers w args response).
    { split; [exact B|]. now exists k, text. }
    exists response, k. split; [exact A|].
    unfold main, generate_image, get_api_key in H. rewrite B, K, N in H.
    cbv [bind ret print emit files log] in H. rewrite U in H.
    unfold finish, log_to_request. cbv [bind ret print emit files log].
    rewrite <- app_assoc in H. exact H.
  - exfalso. unfold main, generate_image, get_api_key in H. rewrite B, K, N in H.
    cbv [bind ret print emit files log] in H. rewrite U in H.
    destruct fp as [[| text | text error_json]|];
      cbv [bind ret print_stderr emit raise sys_exit files log] in H;
      try destruct (is_empty text); discriminate.
Qed.

Lemma finish_inv_return args response s u s' :
  finish args response s = (Return u, s') ->
  exists d image_bytes,
    selects response d /\ truthy (payload d) = true /\
    b64decode (payload d) = inr image_bytes /\
    read_file (files s') (output args) = Some image_bytes /\
    exists before,
      log s' = before ++ [WriteFile (output args) image_bytes;
                          Stdout (ImageSaved (output args))].
Proof.
  unfold finish. intros H.
  apply bind_inv_return in H. destruct H as ([image_bytes m] & s1 & He & H).
  apply bind_inv_return in H. destruct H as (path & s2 & Hs & H).
  apply extract_inv_return in He. destruct He as (d & S & T & D & _ & _).
  apply save_image_inv_return in Hs. destruct Hs as (_ & R & before & L).
  inversion H; subst. exists d, image_bytes. cbn [files log].
  repeat split; auto.
  exists before. cbn [fst] in L. rewrite L, <- app_assoc. reflexivity.
Qed.

(** C1.  Decoding undoes encoding, for every byte sequence.  And in every
    run that succeeds the server answered with a document whose selected
    inline-data object has a payload that is a non-empty string and
    decodes; the bytes written at the output path, the last act before the
    confirmation, are exactly the decoded bytes, and the output file holds
    them at the end, so that it holds [b] whenever the payload is the
    encoding of [b]. *)
Theorem written_bytes_are_decoded_payload :
  (forall b, b64decode (JStr (b64encode b)) = inr b)
  /\ forall w args fs s',
       run w args fs = (Return tt, s') ->
       exists response d data image_bytes,
         answers w args response /\ selects response d /\
         payload d = JStr data /\ data <> "" /\
         b64decode (payload d) = inr image_bytes /\
         (exists before,
            log s' = before ++ [WriteFile (output args) image_bytes;
                                Stdout (ImageSaved (output args))]) /\
         read_file (files s') (output args) = Some image_bytes /\
         forall b, data = b64encode b ->
                   read_file (files s') (output args) = Some b.
Proof.
  split; [apply b64decode_b64encode|].
  intros w args fs s' H. unfold run in H.
  apply main_inv_return in H. destruct H as (response & k & A & H).
  apply finish_inv_return in H.
  destruct H as (d & image_bytes & S & T & D & R & L).
  destruct (payload d) as [| | | | data | |] eqn:P in T, D; try discriminate.
  exists response, d, data, image_bytes.
  split; [exact A|]. split; [exact S|]. split; [exact P|].
  split; [intros E; subst data; discriminate|].
  split; [rewrite P; exact D|]. split; [exact L|]. split; [exact R|].
  intros b E. subst data. rewrite b64decode_b64encode in D.
  inversion D; subst. exact R.
Qed.

Lemma written_bytes_witness :
  let w := sample_world (Response (Document "" (sample_response
             [sample_part (JStr (b64encode ["P"%byte; "N"%byte; "G"%byte]))] []))) in
  run w sample_args empty_fs = (Return tt, snd (run w sample_args empty_fs))
  /\ exists response d data image_bytes,
       answers w sample_args response /\ selects response d /\
       payload d = JStr data /\ data <> "" /\
       b64decode (payload d) = inr image_bytes /\
       (exists before,
          log (snd (run w sample_args empty_fs))
          = before ++ [WriteFile (output sample_args) image_bytes;
                       Stdout (ImageSaved (output sample_args))]) /\
       read_file (files (snd (run w sample_args empty_fs))) (output sample_args)
       = Some image_bytes /\
       forall b, data = b64encode b ->
                 read_file (files (snd (run w sample_args empty_fs)))
                           (output sample_args) = Some b.
Proof.
  intros w. split; [vm_compute; reflexivity|].
  apply (proj2 written_bytes_are_decoded_payload w sample_args empty_fs
           (snd (run w sample_args empty_fs))).
  vm_compute. reflexivity.
Defined.

(** ** Well-formed file systems stay well formed *)

Lemma well_formed_update fs abs parent name n :
  well_formed fs ->
  lookup fs (abs, parent) = Some Dir ->
  n = Dir \/ lookup fs (abs, parent ++ [name]) <> Some Dir ->
  well_formed (update fs (abs, parent ++ [name]) n).
Proof.
  intros W P N abs' parent' name' H.
  assert (Nk : (abs, parent ++ [name]) <> (abs', parent')
               -> lookup (update fs (abs, parent ++ [name]) n) (abs', parent')
                  = lookup fs (abs', parent'))
    by apply lookup_update_other.
  unfold update in H.
  destruct (key_eqb (abs, parent ++ [name]) (abs', parent' ++ [name'])) eqn:E.
  - apply key_eqb_eq in E. inversion E as [[Ea Ep]]. subst abs'.
    apply app_inj_tail in Ep. destruct Ep as [-> ->].
    rewrite Nk; [exact P|]. intros Q. inversion Q as [Q'].
    apply (f_equal (@List.length string)) in Q'. rewrite length_app in Q'.
    cbn in Q'. lia.
  - pose proof (W _ _ _ H) as L.
    destruct (key_eqb (abs, parent ++ [name]) (abs', parent')) eqn:E'.
    + apply key_eqb_eq in E'. rewrite <- E' in *.
      destruct N as [-> | N]; [|contradiction].
      apply lookup_update_same. cbn. now destruct parent.
    + rewrite Nk; [exact L|]. intros Q. apply key_eqb_eq in Q. congruence.
Qed.

Lemma makedirs_from_well_formed abs todo : forall done fs,
  well_formed fs ->
  lookup fs (abs, done) = Some Dir ->
  well_formed (snd (makedirs_from abs done todo fs)).
Proof.
  induction todo as [|name rest IH]; intros done fs W D; cbn [makedirs_from]; [exact W|].
  destruct (lookup fs (abs, done ++ [name])) as [[|c]|] eqn:L.
  - now apply IH.
  - exact W.
  - apply IH.
    + apply well_formed_update; auto.
    + apply lookup_update_same. cbn. now destruct done.
Qed.

Lemma os_makedirs_well_formed p fs :
  well_formed fs -> well_formed (snd (os_makedirs p fs)).
Proof.
  intros W. unfold os_makedirs. destruct (String.eqb p ""); [exact W|].
  now apply makedirs_from_well_formed.
Qed.

Lemma os_write_file_well_formed p content fs :
  well_formed fs -> well_formed (snd (os_write_file p content fs)).
Proof.
  intros W. unfold os_write_file.
  destruct (String.eqb p ""); [exact W|].
  destruct (is_file_name (basename p)) eqn:F; cbn [negb]; [|exact W].
  destruct (path_key_of_file p F) as [K _]. rewrite K. cbn [fst snd].
  rewrite removelast_last.
  destruct (lookup fs (is_absolute p, names (dirname p))) as [[|c]|] eqn:P;
    try exact W.
  destruct (lookup fs (is_absolute p, names (dirname p) ++ [basename p]))
    as [[|c]|] eqn:L; try exact W;
    cbn [snd]; apply well_formed_update; auto; right; congruence.
Qed.

(** [save_image] keeps the file system well formed, whatever its result. *)
Lemma save_image_well_formed image_bytes output_path s :
  well_formed (files s) ->
  well_formed (files (snd (save_image image_bytes output_path s))).
Proof.
  intros W.
  unfold save_image, except_IOError, bind, syscall, emit, ret.
  destruct (is_empty (dirname output_path)); cbn [files log].
  - pose proof (os_write_file_well_formed output_path image_bytes _ W) as W2.
    destruct (os_write_file output_path image_bytes (files s)) as [[e|] fs'];
      exact W2.
  - pose proof (os_makedirs_well_formed (dirname output_path) _ W) as W1.
    destruct (os_makedirs (dirname output_path) (files s)) as [[e|] fs1];
      cbn [snd] in W1; cbn [files log]; [exact W1|].
    pose proof (os_write_file_well_formed output_path image_bytes _ W1) as W2.
    destruct (os_write_file output_path image_bytes fs1) as [[e|] fs'];
      exact W2.
Qed.

Lemma well_formed_empty : well_formed empty_fs.
Proof. intros abs parent name H. now contradiction H. Qed.

(** ** Parent directories *)




Lemma names_empty : names "" = [].
Proof. reflexivity. Qed.







(** * Further properties *)

(** ** What the request can come back with *)

Lemma main_at_request w args api_key r s :
  requests w args api_key r ->
  main w args s
  = (response <-
       (match r with
        | Response Undecodable => raise UnicodeDecodeError
        | Response (Malformed _) => raise JSONDecodeError
        | Response (Document _ value) => ret value
        | HTTPError code fp =>
            error_body <- match fp with
                          | None => ret ""
                          | Some Undecodable =>
                              raise (DuringHandling (HTTPErrorRaised code)
                                                    UnicodeDecodeError)
                          | Some (Malformed text) => ret text
                          | Some (Document text _) => ret text
                          end ;;
            print_stderr (RequestFailed code) ;;
            (if is_empty error_body then ret tt
             else match fp with
                  | Some (Document _ error_json) =>
                      print_stderr (DetailsJson error_json)
                  | _ => print_stderr (DetailsText error_body)
                  end) ;;
            sys_exit 1
        | URLError reason => print_stderr (NetworkError reason) ;; sys_exit 1
        | TimedOut => print_stderr RequestTimedOut ;; sys_exit 1
        | Failure name => raise (OtherError name)
        end) ;;
     finish args response)
    {| files := files s; log := log s ++ log_to_request api_key args |}.
Proof.
  intros (B & K & N & U).
  unfold main. rewrite B.
  unfold generate_image, get_api_key. rewrite K, N.
  cbv [bind ret print emit files log]. rewrite U.
  unfold finish, log_to_request. cbv [bind ret print emit files log].
  rewrite <- app_assoc. reflexivity.
Qed.

(** X2.  A transport failure ends the run with status 1 after one message
    on standard error, the reason of the [URLError] or the time-out; the
    file system is untouched. *)
Theorem transport_failure_exits w args api_key r fs :
  requests w args api_key r ->
  (forall reason, r = URLError reason ->
     run w args fs
     = (SysExit 1,
        {| files := fs;
           log := log_to_request api_key args ++ [Stderr (NetworkError reason)] |}))
  /\ (r = TimedOut ->
      run w args fs
      = (SysExit 1,
         {| files := fs;
            log := log_to_request api_key args ++ [Stderr RequestTimedOut] |})).
Proof.
  intros R. unfold run. rewrite (main_at_request _ _ _ _ _ R). split.
  - intros reason ->. cbv [bind ret print_stderr emit sys_exit files log start].
    cbn [app]. reflexivity.
  - intros ->. cbv [bind ret print_stderr emit sys_exit files log start].
    cbn [app]. reflexivity.
Qed.

Lemma transport_failure_witness :
  requests (sample_world (URLError "unreachable")) sample_args "secret"
           (URLError "unreachable") /\
  run (sample_world (URLError "unreachable")) sample_args empty_fs
  = (SysExit 1,
     {| files := empty_fs;
        log := log_to_request "secret" sample_args
               ++ [Stderr (NetworkError "unreachable")] |}).
Proof.
  assert (R : requests (sample_world (URLError "unreachable")) sample_args "secret"
                       (URLError "unreachable")) by (repeat split).
  split; [exact R|].
  exact (proj1 (transport_failure_exits _ _ _ _ empty_fs R) "unreachable" eq_refl).
Defined.

(** X1.  An HTTP error whose body is absent or is text ends the run with
    status 1 after the status line, which carries the code; the details
    line follows exactly when the text is not empty, with the parsed
    document when the text is JSON and with the raw text otherwise.  Nothing
    is written. *)
Theorem http_error_status_then_details w args api_key code fp fs :
  requests w args api_key (HTTPError code fp) ->
  fp <> Some Undecodable ->
  run w args fs
  = (SysExit 1,
     {| files := fs;
        log := log_to_request api_key args
               ++ Stderr (RequestFailed code)
               :: match fp with
                  | Some (Document text error_json) =>
                      if is_empty text then [] else [Stderr (DetailsJson error_json)]
                  | Some (Malformed text) =>
                      if is_empty text then [] else [Stderr (DetailsText text)]
                  | _ => []
                  end |}).
Proof.
  intros R N. unfold run. rewrite (main_at_request _ _ _ _ _ R).
  destruct fp as [[| text | text error_json]|];
    [now contradiction N | | |];
    cbv [bind ret print_stderr emit sys_exit files log start];
    try destruct (is_empty text); cbn [app]; reflexivity.
Qed.

Lemma http_error_status_witness :
  requests (sample_world (HTTPError 404 (Some (Malformed "not found")))) sample_args
           "secret" (HTTPError 404 (Some (Malformed "not found"))) /\
  run (sample_world (HTTPError 404 (Some (Malformed "not found")))) sample_args empty_fs
  = (SysExit 1,
     {| files := empty_fs;
        log := log_to_request "secret" sample_args
               ++ [Stderr (RequestFailed 404); Stderr (DetailsText "not found")] |}).
Proof.
  assert (R : requests (sample_world (HTTPError 404 (Some (Malformed "not found"))))
                sample_args "secret" (HTTPError 404 (Some (Malformed "not found"))))
    by (repeat split).
  split; [exact R|].
  apply (http_error_status_then_details _ _ _ _ _ empty_fs R). discriminate.
Defined.

(** X3.  A 2xx answer whose body is not UTF-8 or is no JSON document is not
    handled: the exception of [decode] or of [json.loads] leaves [main], the
    script prints nothing on standard error and writes nothing, and the
    interpreter ends with status 1.  So does any exception of [urlopen]
    other than the three the script catches. *)
Theorem unparsable_answer_raises w args api_key r fs :
  requests w args api_key r ->
  forall e,
    r = Response Undecodable /\ e = UnicodeDecodeError
    \/ (exists text, r = Response (Malformed text)) /\ e = JSONDecodeError
    \/ (exists name, r = Failure name /\ e = OtherError name) ->
    run w args fs
    = (Raised e, {| files := fs; log := log_to_request api_key args |})
    /\ exit_status (fst (run w args fs)) = 1%Z
    /\ existsb is_stderr (log (snd (run w args fs))) = false.
Proof.
  intros R e H.
  assert (E : run w args fs
              = (Raised e, {| files := fs; log := log_to_request api_key args |})).
  { unfold run. rewrite (main_at_request _ _ _ _ _ R).
    destruct H as [[-> ->] | [[[text ->] ->] | [name [-> ->]]]]; reflexivity. }
  rewrite E. repeat split.
Qed.

Lemma unparsable_answer_witness :
  requests (sample_world (Response (Malformed "<html>"))) sample_args "secret"
           (Response (Malformed "<html>")) /\
  run (sample_world (Response (Malformed "<html>"))) sample_args empty_fs
  = (Raised JSONDecodeError,
     {| files := empty_fs; log := log_to_request "secret" sample_args |}).
Proof.
  assert (R : requests (sample_world (Response (Malformed "<html>"))) sample_args
                       "secret" (Response (Malformed "<html>"))) by (repeat split).
  split; [exact R|].
  refine (proj1 (unparsable_answer_raises _ _ _ _ empty_fs R JSONDecodeError _)).
  right. left. split; [now exists "<html>" | reflexivity].
Defined.

(** ** More on the extractor *)

Lemma for_part_in_plain items s :
  Forall plain_part items ->
  for_part_in items s
  = (SysExit 1, {| files := files s; log := log s ++ [Stderr NoImageData] |}).
Proof.
  intros H. induction H as [|part rest Hp _ IH]; [reflexivity|].
  cbn [for_part_in]. unfold plain_part in Hp. rewrite Hp.
  cbn [lift bind ret]. exact IH.
Qed.

(** X4.  When the first candidate is an object and none of its parts has an
    [inlineData] key, the extractor prints "Error: No image data found in
    response" and exits with status 1.  This covers a candidate without
    [content], a content without [parts], and an empty list of parts. *)
Theorem no_image_data_exits top candidate more items s :
  lookup_key "candidates" top = Some (JArr (JObj candidate :: more)) ->
  parts_of candidate = Some items ->
  Forall plain_part items ->
  extract_image_data (JObj top) s
  = (SysExit 1, {| files := files s; log := log s ++ [Stderr NoImageData] |})
  /\ fixed_text NoImageData = "Error: No image data found in response".
Proof.
  intros Hc Hp Hi. split; [|reflexivity].
  unfold extract_image_data. cbn [py_get]. rewrite Hc.
  cbn [lift bind ret truthy negb py_first py_get].
  unfold parts_of in Hp.
  destruct (lookup_key "content" candidate) as [content|].
  - destruct content as [| | | | | | ct]; try discriminate.
    cbn [lift bind ret py_get].
    destruct (lookup_key "parts" ct) as [parts|].
    + destruct (py_iter parts) as [e | l] eqn:P; [discriminate|].
      inversion Hp; subst l. cbn [lift bind ret].
      now apply for_part_in_plain.
    + inversion Hp; subst items. reflexivity.
  - inversion Hp; subst items. reflexivity.
Qed.

Lemma no_image_data_witness :
  extract_image_data
    (sample_response [JObj [("text", JStr "I cannot draw that")]] []) (start empty_fs)
  = (SysExit 1, {| files := empty_fs; log := [Stderr NoImageData] |}).
Proof.
  refine (proj1 (no_image_data_exits
    [("candidates",
      JArr [JObj [("content",
                   JObj [("role", JStr "model");
                         ("parts", JArr [JObj [("text", JStr "I cannot draw that")]])])]])]
    [("content",
      JObj [("role", JStr "model");
            ("parts", JArr [JObj [("text", JStr "I cannot draw that")]])])]
    [] [JObj [("text", JStr "I cannot draw that")]] (start empty_fs)
    eq_refl eq_refl _)).
  constructor; [reflexivity | constructor].
Defined.

(** X5.  The result of the extractor depends on the response only through
    the payload and the mime type of the inline-data object it selects: two
    responses that agree on these give the same result, whatever else they
    hold. *)
Theorem extractor_reads_selected_only r1 r2 d1 d2 s :
  selects r1 d1 -> selects r2 d2 ->
  payload d1 = payload d2 -> mime d1 = mime d2 ->
  extract_image_data r1 s = extract_image_data r2 s.
Proof.
  intros S1 S2 P Q.
  rewrite (extract_selected _ _ s S1), (extract_selected _ _ s S2), P, Q.
  reflexivity.
Qed.

Lemma extractor_reads_selected_witness :
  extract_image_data
    (sample_response [sample_part (JStr "QUJD")] []) (start empty_fs)
  = extract_image_data
      (sample_response
         [JObj [("text", JStr "done")]; sample_part (JStr "QUJD"); sample_part (JStr "")]
         [JNull])
      (start empty_fs).
Proof.
  apply (extractor_reads_selected_only _ _
           [("mimeType", JStr "image/png"); ("data", JStr "QUJD")]
           [("mimeType", JStr "image/png"); ("data", JStr "QUJD")]).
  - unfold sample_response, sample_part.
    eapply (selects_first _ _ _ _ []); try reflexivity. constructor.
  - unfold sample_response, sample_part.
    eapply (selects_first _ _ _ _ [JObj [("text", JStr "done")]]); try reflexivity.
    constructor; [reflexivity | constructor].
  - reflexivity.
  - reflexivity.
Defined.

Lemma only_prints_ret {A} (a : A) : only_prints (ret a).
Proof. intros s. split; [reflexivity|]. exists []. now rewrite app_nil_r. Qed.

Lemma only_prints_raise {A} e : only_prints (raise e : M A).
Proof. intros s. split; [reflexivity|]. exists []. now rewrite app_nil_r. Qed.

Lemma only_prints_sys_exit {A} code : only_prints (sys_exit code : M A).
Proof. intros s. split; [reflexivity|]. exists []. now rewrite app_nil_r. Qed.

Lemma only_prints_lift {A} (r : exn + A) : only_prints (lift r).
Proof. destruct r; [apply only_prints_raise | apply only_prints_ret]. Qed.

Lemma only_prints_print_stderr m : only_prints (print_stderr m).
Proof. intros s. split; [reflexivity|]. now exists [Stderr m]. Qed.

Lemma only_prints_print m : only_prints (print m).
Proof. intros s. split; [reflexivity|]. now exists [Stdout m]. Qed.

Lemma only_prints_bind {A B} (m : M A) (k : A -> M B) :
  only_prints m -> (forall a, only_prints (k a)) -> only_prints (bind m k).
Proof.
  intros Hm Hk s. unfold bind.
  destruct (Hm s) as (F & msgs & L & P).
  destruct (m s) as [[a | code | e] s1]; cbn [snd] in *.
  - destruct (Hk a s1) as (F' & msgs' & L' & P').
    split; [congruence|]. exists (msgs ++ msgs').
    rewrite L', L, app_assoc, forallb_app, P, P'. auto.
  - split; [exact F|]. now exists msgs.
  - split; [exact F|]. now exists msgs.
Qed.

Lemma only_prints_exit {A} m : only_prints (print_stderr m ;; sys_exit 1 : M A).
Proof.
  apply only_prints_bind; [apply only_prints_print_stderr|].
  intros _. apply only_prints_sys_exit.
Qed.

Lemma only_prints_for_part_in items : only_prints (for_part_in items).
Proof.
  induction items as [|part rest IH]; cbn [for_part_in].
  - apply only_prints_exit.
  - apply only_prints_bind; [apply only_prints_lift|]. intros found.
    destruct found; [|exact IH].
    apply only_prints_bind; [apply only_prints_lift|]. intros inline_data.
    apply only_prints_bind; [apply only_prints_lift|]. intros mime_type.
    apply only_prints_bind; [apply only_prints_lift|]. intros base64_data.
    destruct (negb (truthy base64_data)); [apply only_prints_exit|].
    destruct (b64decode base64_data); [apply only_prints_exit | apply only_prints_ret].
Qed.

Lemma only_prints_extract_image_data response :
  only_prints (extract_image_data response).
Proof.
  unfold extract_image_data.
  apply only_prints_bind; [apply only_prints_lift|]. intros candidates.
  destruct (negb (truthy candidates)); [apply only_prints_exit|].
  apply only_prints_bind; [apply only_prints_lift|]. intros candidate.
  apply only_prints_bind; [apply only_prints_lift|]. intros content.
  apply only_prints_bind; [apply only_prints_lift|]. intros parts.
  apply only_prints_bind; [apply only_prints_lift|]. intros items.
  apply only_prints_for_part_in.
Qed.

Lemma messages_are_no_requests msgs :
  forallb is_message msgs = true ->
  existsb is_request msgs = false /\ existsb is_fs_event msgs = false
  /\ filter is_request msgs = [].
Proof.
  induction msgs as [|e msgs IH]; [auto|].
  cbn [forallb]. intros P. apply andb_true_iff in P. destruct P as [Pe Pm].
  destruct (IH Pm) as (R & F & L).
  destruct e; try discriminate; cbn; auto.
Qed.

(** X6.  The extractor has no effect but messages: for every response,
    whatever its shape, it leaves the file system as it is and adds only
    messages to the log, no request and no file operation. *)
Theorem extractor_only_prints (response : json) :
  only_prints (extract_image_data response)
  /\ forall s, existsb is_request (log (snd (extract_image_data response s)))
               = existsb is_request (log s).
Proof.
  pose proof (only_prints_extract_image_data response) as O.
  split; [exact O|].
  intros s. destruct (O s) as (_ & msgs & L & P). rewrite L, existsb_app.
  rewrite (proj1 (messages_are_no_requests msgs P)). apply orb_false_r.
Qed.

(** ** More on the file writer *)

Lemma lookup_prefix_dir fs abs a b :
  well_formed fs ->
  lookup fs (abs, a ++ b) = Some Dir -> lookup fs (abs, a) = Some Dir.
Proof.
  intros W. induction b as [|x b IH] using rev_ind.
  - now rewrite app_nil_r.
  - rewrite app_assoc. intros H. apply IH. apply (W abs (a ++ b) x).
    unfold lookup in H. cbn [snd] in H.
    destruct ((a ++ b) ++ [x]) eqn:E; [now destruct (a ++ b)|]. congruence.
Qed.

(** [os.makedirs] on a directory that exists changes nothing. *)
Lemma makedirs_from_existing abs todo : forall done fs,
  well_formed fs ->
  lookup fs (abs, done ++ todo) = Some Dir ->
  makedirs_from abs done todo fs = (None, fs).
Proof.
  induction todo as [|name rest IH]; intros done fs W H; [reflexivity|].
  cbn [makedirs_from].
  replace (done ++ name :: rest) with ((done ++ [name]) ++ rest) in H
    by (now rewrite <- app_assoc).
  rewrite (lookup_prefix_dir _ _ _ _ W H). now apply IH.
Qed.

Lemma write_into_directory p content fs :
  is_file_name (basename p) = true ->
  lookup fs (is_absolute p, names (dirname p)) = Some Dir ->
  lookup fs (path_key p) <> Some Dir ->
  os_write_file p content fs = (None, update fs (path_key p) (File content)).
Proof.
  intros F D N.
  assert (Np : String.eqb p "" = false).
  { apply String.eqb_neq. intros E. rewrite E in F. discriminate. }
  destruct (path_key_of_file p F) as [K _].
  unfold os_write_file. rewrite Np, F. cbn [negb].
  rewrite K in *. cbn [fst snd]. rewrite removelast_last, D.
  destruct (lookup fs (is_absolute p, names (dirname p) ++ [basename p]))
    as [[|c]|]; [now contradiction N | reflexivity | reflexivity].
Qed.

(** X7.  A path without a directory part is written in the working
    directory: [os.makedirs] is not called, the file is created or
    overwritten with the bytes, the path is returned, and every other node
    of the file system is as before. *)
Theorem save_image_in_working_directory image_bytes output_path s :
  dirname output_path = "" ->
  is_file_name (basename output_path) = true ->
  lookup (files s) (path_key output_path) <> Some Dir ->
  save_image image_bytes output_path s
  = (Return output_path,
     {| files := update (files s) (path_key output_path) (File image_bytes);
        log := log s ++ [WriteFile output_path image_bytes] |})
  /\ read_file (update (files s) (path_key output_path) (File image_bytes)) output_path
     = Some image_bytes
  /\ forall k, k <> path_key output_path ->
       lookup (update (files s) (path_key output_path) (File image_bytes)) k
       = lookup (files s) k.
Proof.
  intros E F N.
  assert (W : os_write_file output_path image_bytes (files s)
              = (None, update (files s) (path_key output_path) (File image_bytes))).
  { apply write_into_directory; auto. now rewrite E. }
  split; [|split].
  - unfold save_image, except_IOError, bind, syscall, emit, ret.
    rewrite E. cbn [is_empty String.eqb files log]. rewrite W. reflexivity.
  - now apply os_write_file_read in W.
  - intros k Hk. apply lookup_update_other. congruence.
Qed.

Lemma save_image_in_working_directory_witness :
  save_image ["n"%byte; "e"%byte; "w"%byte] "kite.png"
    (start (update empty_fs (false, ["kite.png"]) (File ["o"%byte; "l"%byte; "d"%byte])))
  = (Return "kite.png",
     {| files := update (update empty_fs (false, ["kite.png"])
                                (File ["o"%byte; "l"%byte; "d"%byte]))
                        (path_key "kite.png") (File ["n"%byte; "e"%byte; "w"%byte]);
        log := [WriteFile "kite.png" ["n"%byte; "e"%byte; "w"%byte]] |}).
Proof.
  refine (proj1 (save_image_in_working_directory ["n"%byte; "e"%byte; "w"%byte]
                   "kite.png"
                   (start (update empty_fs (false, ["kite.png"])
                                  (File ["o"%byte; "l"%byte; "d"%byte])))
                   eq_refl eq_refl _)).
  vm_compute. discriminate.
Defined.

(** X8.  When the parent directory exists already, [os.makedirs] is still
    called and changes nothing ([exist_ok]); the file is created or
    overwritten, and no other node changes. *)
Theorem save_image_keeps_existing_parent image_bytes output_path s :
  well_formed (files s) ->
  is_file_name (basename output_path) = true ->
  dirname output_path <> "" ->
  is_dir (files s) (dirname output_path) = true ->
  lookup (files s) (path_key output_path) <> Some Dir ->
  os_makedirs (dirname output_path) (files s) = (None, files s)
  /\ save_image image_bytes output_path s
     = (Return output_path,
        {| files := update (files s) (path_key output_path) (File image_bytes);
           log := log s ++ [Makedirs (dirname output_path);
                            WriteFile output_path image_bytes] |})
  /\ read_file (update (files s) (path_key output_path) (File image_bytes)) output_path
     = Some image_bytes
  /\ forall k, k <> path_key output_path ->
       lookup (update (files s) (path_key output_path) (File image_bytes)) k
       = lookup (files s) k.
Proof.
  intros W F Nd D N.
  destruct (path_key_of_file _ F) as [_ Kd].
  assert (Dd : lookup (files s) (is_absolute output_path, names (dirname output_path))
               = Some Dir).
  { unfold is_dir in D. rewrite Kd in D.
    destruct (lookup (files s) (is_absolute output_path, names (dirname output_path)))
      as [[|c]|]; [reflexivity | discriminate | discriminate]. }
  assert (M : os_makedirs (dirname output_path) (files s) = (None, files s)).
  { unfold os_makedirs. rewrite (proj2 (String.eqb_neq _ _) Nd).
    destruct (names_of_file _ F) as [_ A]. rewrite A.
    now apply makedirs_from_existing. }
  assert (Wr : os_write_file output_path image_bytes (files s)
               = (None, update (files s) (path_key output_path) (File image_bytes)))
    by (now apply write_into_directory).
  split; [exact M|]. split; [|split].
  - unfold save_image, except_IOError, bind, syscall, emit, ret.
    unfold is_empty. rewrite (proj2 (String.eqb_neq _ _) Nd).
    cbn [files log]. rewrite M. cbn [files log]. rewrite Wr, <- app_assoc.
    reflexivity.
  - now apply os_write_file_read in Wr.
  - intros k Hk. apply lookup_update_other. congruence.
Qed.

Lemma save_image_keeps_existing_parent_witness :
  is_dir (update empty_fs (false, ["out"]) Dir) "out" = true /\
  fst (save_image ["A"%byte] "out/kite.png"
         (start (update empty_fs (false, ["out"]) Dir)))
  = Return "out/kite.png".
Proof.
  split; [reflexivity|].
  assert (W : well_formed (update empty_fs (false, [] ++ ["out"]) Dir)).
  { apply well_formed_update; [exact well_formed_empty | reflexivity | now left]. }
  assert (N : lookup (update empty_fs (false, ["out"]) Dir) (path_key "out/kite.png")
              <> Some Dir) by (vm_compute; discriminate).
  assert (Nd : dirname "out/kite.png" <> "") by (vm_compute; discriminate).
  rewrite (proj1 (proj2 (save_image_keeps_existing_parent ["A"%byte] "out/kite.png"
                           (start (update empty_fs (false, ["out"]) Dir))
                           W eq_refl Nd eq_refl N))).
  reflexivity.
Defined.

(** X9.  [save_image] never lets an exception out.  Either it returns the
    output path, and the file then holds the bytes; or [os.makedirs] or the
    write raised an [OSError], and its last act is the message "Error:
    Failed to save image" with that error, followed by exit status 1. *)
Theorem save_image_returns_or_exits image_bytes output_path s :
  (fst (save_image image_bytes output_path s) = Return output_path /\
   read_file (files (snd (save_image image_bytes output_path s))) output_path
   = Some image_bytes)
  \/ (fst (save_image image_bytes output_path s) = SysExit 1 /\
      exists before e,
        log (snd (save_image image_bytes output_path s))
        = before ++ [Stderr (SaveFailed e)] /\
        (os_makedirs (dirname output_path) (files s) = (Some e, files (snd (save_image image_bytes output_path s)))
         \/ exists fs1, os_write_file output_path image_bytes fs1
                        = (Some e, files (snd (save_image image_bytes output_path s))))).
Proof.
  unfold save_image, except_IOError, bind, syscall, emit, ret, print_stderr, sys_exit.
  destruct (is_empty (dirname output_path)); cbn [files log].
  - destruct (os_write_file output_path image_bytes (files s)) as [[e|] fs'] eqn:W;
      cbn [fst snd files log].
    + right. split; [reflexivity|]. eexists; exists e. split; [reflexivity|].
      right. now exists (files s).
    + left. split; [reflexivity|]. now apply os_write_file_read in W.
  - destruct (os_makedirs (dirname output_path) (files s)) as [[e|] fs1] eqn:Mk;
      cbn [fst snd files log].
    + right. split; [reflexivity|]. eexists; exists e. split; [reflexivity|].
      now left.
    + destruct (os_write_file output_path image_bytes fs1) as [[e|] fs'] eqn:W;
        cbn [fst snd files log].
      * right. split; [reflexivity|]. eexists; exists e. split; [reflexivity|].
        right. now exists fs1.
      * left. split; [reflexivity|]. now apply os_write_file_read in W.
Qed.

(** ** The effects of a run *)

Lemma save_image_log image_bytes output_path s :
  exists evs,
    log (snd (save_image image_bytes output_path s)) = log s ++ evs /\
    existsb is_fs_event evs = true /\
    filter is_request evs = [].
Proof.
  unfold save_image, except_IOError, bind, syscall, emit, ret, print_stderr, sys_exit.
  destruct (is_empty (dirname output_path)); cbn [files log].
  - destruct (os_write_file output_path image_bytes (files s)) as [[e|] fs'];
      cbv [snd files log emit]; rewrite <- ?app_assoc;
      eexists; (split; [reflexivity | split; reflexivity]).
  - destruct (os_makedirs (dirname output_path) (files s)) as [[e|] fs1];
      cbv [snd files log emit].
    + rewrite <- ?app_assoc. eexists; (split; [reflexivity | split; reflexivity]).
    + destruct (os_write_file output_path image_bytes fs1) as [[e|] fs'];
        cbv [snd files log emit]; rewrite <- ?app_assoc;
        eexists; (split; [reflexivity | split; reflexivity]).
Qed.

Lemma finish_effects args response s :
  exists evs,
    log (snd (finish args response s)) = log s ++ evs /\
    filter is_request evs = [] /\
    (files (snd (finish args response s)) = files s
     \/ existsb is_fs_event evs = true) /\
    (well_formed (files s) -> well_formed (files (snd (finish args response s)))).
Proof.
  destruct (only_prints_extract_image_data response s) as (F & msgs & L & P).
  destruct (messages_are_no_requests msgs P) as (_ & _ & R).
  destruct (extract_image_data response s) as [[x | code | e] s1] eqn:E;
    cbn [snd] in F, L.
  - destruct (save_image_log (fst x) (output args) s1) as (evs & L2 & E2 & R2).
    pose proof (save_image_well_formed (fst x) (output args) s1) as W2.
    destruct (save_image (fst x) (output args) s1) as [[p | code | e] s2] eqn:Sv;
      cbn [snd] in L2, W2.
    + assert (Ef : finish args response s
                   = (Return tt,
                      {| files := files s2;
                         log := log s2 ++ [Stdout (ImageSaved (output args))] |})).
      { unfold finish. rewrite (bind_return _ _ _ _ _ E).
        rewrite (bind_return _ _ _ _ _ Sv). reflexivity. }
      rewrite Ef. cbn [snd files log].
      exists (msgs ++ evs ++ [Stdout (ImageSaved (output args))]).
      rewrite L2, L, <- !app_assoc, !filter_app, R, R2, !existsb_app, E2.
      split; [reflexivity|]. split; [reflexivity|]. split.
      * right. now rewrite orb_true_r.
      * intros W. apply W2. now rewrite F.
    + assert (Ef : finish args response s = (SysExit code, s2)).
      { unfold finish. rewrite (bind_return _ _ _ _ _ E).
        now rewrite (bind_exit _ _ _ _ _ Sv). }
      rewrite Ef. cbn [snd]. exists (msgs ++ evs).
      rewrite L2, L, <- !app_assoc, !filter_app, R, R2, !existsb_app, E2.
      split; [reflexivity|]. split; [reflexivity|]. split.
      * right. now rewrite orb_true_r.
      * intros W. apply W2. now rewrite F.
    + assert (Ef : finish args response s = (Raised e, s2)).
      { unfold finish. rewrite (bind_return _ _ _ _ _ E).
        now rewrite (bind_raised _ _ _ _ _ Sv). }
      rewrite Ef. cbn [snd]. exists (msgs ++ evs).
      rewrite L2, L, <- !app_assoc, !filter_app, R, R2, !existsb_app, E2.
      split; [reflexivity|]. split; [reflexivity|]. split.
      * right. now rewrite orb_true_r.
      * intros W. apply W2. now rewrite F.
  - rewrite (finish_exit _ _ _ _ _ E). cbn [snd]. exists msgs. rewrite F.
    repeat split; auto.
  - assert (Ef : finish args response s = (Raised e, s1))
      by (unfold finish; now rewrite (bind_raised _ _ _ _ _ E)).
    rewrite Ef. cbn [snd]. exists msgs. rewrite F. repeat split; auto.
Qed.

Lemma generate_image_cases w p s :
  (exists k text r,
     environ w "GEMINI_API_KEY" = Some k /\ is_empty k = false /\
     urlopen w (build_request k p) = Response (Document text r) /\
     generate_image w p s
     = (Return r,
        {| files := files s; log := log s ++ [UrlOpen (build_request k p)] |}))
  \/ (exists o evs,
        generate_image w p s = (o, {| files := files s; log := log s ++ evs |}) /\
        (forall r, o <> Return r) /\
        existsb is_fs_event evs = false /\
        (filter is_request evs = []
         \/ exists k,
              environ w "GEMINI_API_KEY" = Some k /\ is_empty k = false /\
              filter is_request evs = [UrlOpen (build_request k p)])).
Proof.
  unfold generate_image, get_api_key.
  destruct (environ w "GEMINI_API_KEY") as [k|] eqn:K.
  2:{ right. exists (SysExit 1), [Stderr NoApiKey].
      repeat split; auto. intros r. discriminate. }
  destruct (is_empty k) eqn:N.
  { right. exists (SysExit 1), [Stderr NoApiKey].
    repeat split; auto. intros r. discriminate. }
  cbv [bind ret emit files log].
  destruct (urlopen w (build_request k p))
    as [[| text | text r] | code fp | reason | | name] eqn:U.
  - right. exists (Raised UnicodeDecodeError), [UrlOpen (build_request k p)].
    repeat split; auto; [intros r; discriminate | right; now exists k].
  - right. exists (Raised JSONDecodeError), [UrlOpen (build_request k p)].
    repeat split; auto; [intros r; discriminate | right; now exists k].
  - left. now exists k, text, r.
  - right.
    destruct fp as [[| text | text error_json]|];
      cbv [bind ret print_stderr emit raise sys_exit files log];
      try destruct (is_empty text);
      rewrite <- ?app_assoc;
      eexists; eexists;
      (split; [reflexivity|]);
      (split; [intros r; discriminate|]);
      (split; [reflexivity|]); right; now exists k.
  - right. cbv [bind ret print_stderr emit raise sys_exit files log].
    rewrite <- ?app_assoc. eexists; eexists.
    split; [reflexivity|]. split; [intros r; discriminate|].
    split; [reflexivity|]. right. now exists k.
  - right. cbv [bind ret print_stderr emit raise sys_exit files log].
    rewrite <- ?app_assoc. eexists; eexists.
    split; [reflexivity|]. split; [intros r; discriminate|].
    split; [reflexivity|]. right. now exists k.
  - right. exists (Raised (OtherError name)), [UrlOpen (build_request k p)].
    repeat split; auto; [intros r; discriminate | right; now exists k].
Qed.

Lemma bind_not_return {A B} (m : M A) (k : A -> M B) s o s' :
  m s = (o, s') -> (forall a, o <> Return a) -> snd (bind m k s) = s'.
Proof.
  intros E N. unfold bind. rewrite E.
  destruct o as [a | code | e]; [now contradiction (N a) | reflexivity | reflexivity].
Qed.

Lemma main_after_prompt w args s :
  is_empty (strip (prompt args)) = false ->
  main w args s
  = bind (generate_image w (prompt args)) (finish args)
      {| files := files s;
         log := log s ++ [Stdout (Generating (prefix_to 50 (prompt args))
                                    (Nat.ltb 50 (String.length (prompt args))))] |}.
Proof. intros B. unfold main. rewrite B. reflexivity. Qed.

Lemma main_effects w args s :
  exists evs,
    log (snd (main w args s)) = log s ++ evs /\
    (filter is_request evs = []
     \/ exists k,
          environ w "GEMINI_API_KEY" = Some k /\ is_empty k = false /\
          filter is_request evs = [UrlOpen (build_request k (prompt args))]) /\
    (files (snd (main w args s)) = files s \/ existsb is_fs_event evs = true) /\
    (well_formed (files s) -> well_formed (files (snd (main w args s)))) /\
    (is_empty (strip (prompt args)) = false ->
     exists rest,
       evs = Stdout (Generating (prefix_to 50 (prompt args))
                       (Nat.ltb 50 (String.length (prompt args)))) :: rest).
Proof.
  destruct (is_empty (strip (prompt args))) eqn:B.
  { exists [Stderr EmptyPrompt]. unfold main. rewrite B.
    repeat split; auto. discriminate. }
  rewrite (main_after_prompt _ _ _ B).
  set (G := Stdout (Generating (prefix_to 50 (prompt args))
                      (Nat.ltb 50 (String.length (prompt args))))).
  set (s1 := {| files := files s; log := log s ++ [G] |}).
  destruct (generate_image_cases w (prompt args) s1)
    as [(k & text & r & K & N & U & E) | (o & evs & E & No & Fe & Rq)].
  - rewrite (bind_return _ _ _ _ _ E).
    set (s2 := {| files := files s1;
                  log := log s1 ++ [UrlOpen (build_request k (prompt args))] |}).
    assert (Ls2 : log s2 = log s ++ [G; UrlOpen (build_request k (prompt args))])
      by (cbn [s2 s1 files log]; now rewrite <- app_assoc).
    assert (Fs2 : files s2 = files s) by reflexivity.
    clearbody s2.
    destruct (finish_effects args r s2) as (evs & L & R & F & W).
    rewrite Fs2 in F, W.
    exists (G :: UrlOpen (build_request k (prompt args)) :: evs).
    rewrite L, Ls2, <- app_assoc. cbn [app filter is_request G]. rewrite R.
    split; [reflexivity|]. split; [right; now exists k|].
    split; [|split; [exact W | intros _; now eexists]].
    destruct F as [F | F]; [now left | right].
    cbn [existsb is_fs_event G]. exact F.
  - rewrite (bind_not_return _ _ _ _ _ E No). cbn [files log s1].
    exists (G :: evs). rewrite <- app_assoc. cbn [app filter is_request G].
    split; [reflexivity|]. split; [exact Rq|].
    split; [now left|]. split; [auto | intros _; now eexists].
Qed.

(** X10.  A run keeps the file system well formed: every node it leaves
    lies in a directory, whatever the server answers and however the run
    ends. *)
Theorem run_keeps_well_formed w args fs :
  well_formed fs -> well_formed (files (snd (run w args fs))).
Proof.
  intros W. unfold run.
  destruct (main_effects w args (start fs)) as (evs & _ & _ & _ & H & _).
  now apply H.
Qed.

Lemma run_keeps_well_formed_witness :
  well_formed
    (files (snd (run (sample_world
                        (Response (Document "" (sample_response
                           [sample_part (JStr "QUJD")] []))))
                     sample_args empty_fs))).
Proof.
  apply run_keeps_well_formed. exact well_formed_empty.
Defined.

(** X11.  The file system changes only through [save_image]: a run whose
    log shows no call of [os.makedirs] and no write ends with the file
    system it started from. *)
Theorem files_change_only_with_file_events w args fs :
  existsb is_fs_event (log (snd (run w args fs))) = false ->
  files (snd (run w args fs)) = fs.
Proof.
  unfold run.
  destruct (main_effects w args (start fs)) as (evs & L & _ & [F | F] & _).
  - intros _. exact F.
  - rewrite L. cbn [start log app]. rewrite F. discriminate.
Qed.

Lemma files_change_only_witness :
  files (snd (run (sample_world TimedOut) sample_args empty_fs)) = empty_fs.
Proof.
  apply files_change_only_with_file_events. reflexivity.
Defined.

(** X12.  A run sends at most one request, and only with a key: the
    requests of its log are none, or the single [POST] of the prompt to the
    endpoint with the key of the environment, which is then set and not
    empty. *)
Theorem at_most_one_request w args fs :
  filter is_request (log (snd (run w args fs))) = []
  \/ exists k,
       environ w "GEMINI_API_KEY" = Some k /\ is_empty k = false /\
       filter is_request (log (snd (run w args fs)))
       = [UrlOpen (build_request k (prompt args))].
Proof.
  unfold run.
  destruct (main_effects w args (start fs)) as (evs & L & R & _).
  rewrite L. cbn [start log app]. exact R.
Qed.

(** ** The announcement *)

Lemma str_injective (a b : list ascii) : str a = str b -> a = b.
Proof. intros H. apply (f_equal chars) in H. now rewrite !chars_str in H. Qed.

Lemma strip_empty_blank (s : string) :
  strip s = "" -> forallb isspace (chars s) = true.
Proof.
  unfold strip. intros H. apply (str_injective _ []) in H.
  apply rdropwhile_nil in H.
  destruct (dropwhile_span isspace (chars s)) as (t & E & F).
  rewrite E, forallb_app, F, H. reflexivity.
Qed.

Lemma blank_has_no_other_char (l : list ascii) :
  forallb isspace l = true -> existsb (fun c => negb (isspace c)) l = false.
Proof.
  induction l as [|c r IH]; [reflexivity|]. cbn [forallb existsb].
  intros H. apply andb_true_iff in H. destruct H as [Hc Hr].
  now rewrite Hc, (IH Hr).
Qed.

Lemma nonblank_passes_check (s : string) :
  existsb (fun c => negb (isspace c)) (chars s) = true ->
  is_empty (strip s) = false.
Proof.
  intros H. unfold is_empty. destruct (String.eqb (strip s) "") eqn:E; [|reflexivity].
  apply String.eqb_eq in E. apply strip_empty_blank in E.
  apply blank_has_no_other_char in E. congruence.
Qed.

Lemma length_str (l : list ascii) : String.length (str l) = List.length l.
Proof. induction l as [|c r IH]; [reflexivity|]. cbn. now rewrite <- IH. Qed.

Lemma length_chars (s : string) : List.length (chars s) = String.length s.
Proof. now rewrite <- length_str, str_chars. Qed.

(** X13.  A prompt with a character that is no white space passes the
    check of [main], and the first act of the run is the announcement on
    standard output: it shows the first 50 characters of the prompt, the
    whole prompt when it has at most 50, and ends with an ellipsis exactly
    when the prompt has more. *)
Theorem nonblank_prompt_is_announced w args fs :
  existsb (fun c => negb (isspace c)) (chars (prompt args)) = true ->
  (exists rest,
     log (snd (run w args fs))
     = Stdout (Generating (prefix_to 50 (prompt args))
                 (Nat.ltb 50 (String.length (prompt args)))) :: rest)
  /\ String.length (prefix_to 50 (prompt args))
     = Nat.min 50 (String.length (prompt args))
  /\ (String.length (prompt args) <= 50 ->
      prefix_to 50 (prompt args) = prompt args
      /\ Nat.ltb 50 (String.length (prompt args)) = false).
Proof.
  intros H. apply nonblank_passes_check in H. split; [|split].
  - unfold run.
    destruct (main_effects w args (start fs)) as (evs & L & _ & _ & _ & A).
    destruct (A H) as [rest ->]. exists rest. exact L.
  - unfold prefix_to. now rewrite length_str, length_firstn, length_chars.
  - intros Le. split.
    + unfold prefix_to. rewrite firstn_all2 by (rewrite length_chars; exact Le).
      apply str_chars.
    + apply Nat.ltb_ge. exact Le.
Qed.

Lemma nonblank_prompt_witness :
  exists rest,
    log (snd (run (sample_world TimedOut) sample_args empty_fs))
    = Stdout (Generating "a red kite" false) :: rest.
Proof.
  exact (proj1 (nonblank_prompt_is_announced (sample_world TimedOut) sample_args
                  empty_fs eq_refl)).
Defined.

(** ** A run that succeeds *)



